(** * CosmoHubitatPlugin: condition index, dispatch loop and condition variants

    A shallow embedding of [cosmohubitatplugin/__init__.py] (class
    [HubitatPlugin]) and [cosmohubitatplugin/utility.py] (the three condition
    classes), together with the part of Python's value semantics these
    functions rely on. *)

From Stdlib Require Import ZArith List String Ascii Bool Lia.
From Stdlib Require Import Floats.SpecFloat.
Import ListNotations.
Local Open Scope string_scope.
Local Open Scope list_scope.
Local Open Scope Z_scope.

(** ** Python values and exceptions *)

(** Exceptions are modelled by class: the [except] clauses of the source only
    discriminate on the class. *)
Inductive exc : Type :=
  | ValueError
  | TypeError
  | KeyError
  | OverflowError
  | RuntimeError.

Inductive Result (A : Type) : Type :=
  | Ok (a : A)
  | Raise (e : exc).
Arguments Ok {A} a.
Arguments Raise {A} e.

Definition bind {A B : Type} (r : Result A) (k : A -> Result B) : Result B :=
  match r with
  | Ok a => k a
  | Raise e => Raise e
  end.

Notation "x <- r ;; k" := (bind r (fun x => k))
  (at level 61, r at next level, right associativity).

(** The scalars that flow through the plugin: JSON [null], booleans, integers,
    binary64 floats and strings.  A string is a sequence of code points below
    U+0100; floats are IEEE-754 values in the representation of [SpecFloat]. *)
Inductive PyValue : Type :=
  | VNone
  | VBool (b : bool)
  | VInt (z : Z)
  | VFloat (f : spec_float)
  | VStr (s : string).

(** Python classes, as far as [isinstance] needs them. *)
Inductive PyClass : Type :=
  | cls_NoneType
  | cls_bool
  | cls_int
  | cls_float
  | cls_str
  | cls_type.

Definition PyClass_eqb (a b : PyClass) : bool :=
  match a, b with
  | cls_NoneType, cls_NoneType | cls_bool, cls_bool | cls_int, cls_int
  | cls_float, cls_float | cls_str, cls_str | cls_type, cls_type => true
  | _, _ => false
  end.

(** [type(v)] for a value. *)
Definition type_of (v : PyValue) : PyClass :=
  match v with
  | VNone => cls_NoneType
  | VBool _ => cls_bool
  | VInt _ => cls_int
  | VFloat _ => cls_float
  | VStr _ => cls_str
  end.

(** [type(c)] for a class object: every builtin class is an instance of the
    metaclass [type]. *)
Definition type_of_class (c : PyClass) : PyClass := cls_type.

(** [issubclass]: [bool] derives from [int]; otherwise only reflexivity. *)
Definition issubclass (a b : PyClass) : bool :=
  match a, b with
  | cls_bool, cls_int => true
  | _, _ => PyClass_eqb a b
  end.

Definition isinstance (v : PyValue) (c : PyClass) : bool :=
  issubclass (type_of v) c.

(** *** Numbers *)

Definition binary64_prec : Z := 53.
Definition binary64_emax : Z := 1024.

(** The numeric tower: [bool] and [int] are exact integers. *)
Inductive num : Type :=
  | NInt (z : Z)
  | NFloat (f : spec_float).

Definition as_num (v : PyValue) : option num :=
  match v with
  | VBool b => Some (NInt (if b then 1 else 0))
  | VInt z => Some (NInt z)
  | VFloat f => Some (NFloat f)
  | _ => None
  end.

(** Exact comparison of an integer with a float (Python compares the
    mathematical values, without rounding the integer).  [None] is the
    unordered outcome of a NaN. *)
Definition Z_SF_compare (z : Z) (f : spec_float) : option comparison :=
  match f with
  | S754_nan => None
  | S754_zero _ => Some (Z.compare z 0)
  | S754_infinity s => Some (if s then Gt else Lt)
  | S754_finite s m e =>
      let sm := if s then Z.neg m else Z.pos m in
      if 0 <=? e then Some (Z.compare z (sm * 2 ^ e))
      else Some (Z.compare (z * 2 ^ (- e)) sm)
  end.

Definition num_compare (a b : num) : option comparison :=
  match a, b with
  | NInt x, NInt y => Some (Z.compare x y)
  | NInt x, NFloat g => Z_SF_compare x g
  | NFloat f, NInt y => option_map CompOpp (Z_SF_compare y f)
  | NFloat f, NFloat g => SFcompare f g
  end.

(** *** Strings *)

Definition is_upper_code (n : nat) : bool :=
  (* A-Z, and the Latin-1 capitals U+00C0..U+00DE except the sign U+00D7 *)
  ((65 <=? n) && (n <=? 90))%nat
  || ((192 <=? n) && (n <=? 222) && negb (n =? 215))%nat.

Definition lower_ascii (a : ascii) : ascii :=
  let n := nat_of_ascii a in
  if is_upper_code n then ascii_of_nat (n + 32) else a.

(** [str.lower()] *)
Fixpoint py_lower (s : string) : string :=
  match s with
  | EmptyString => EmptyString
  | String a s' => String (lower_ascii a) (py_lower s')
  end.

Fixpoint str_in (s : string) (l : list string) : bool :=
  match l with
  | [] => false
  | t :: l' => String.eqb s t || str_in s l'
  end.

(** *** Comparison operators on values *)

(** [a == b] *)
Definition py_eq (a b : PyValue) : bool :=
  match as_num a, as_num b with
  | Some x, Some y =>
      match num_compare x y with
      | Some Eq => true
      | _ => false
      end
  | _, _ =>
      match a, b with
      | VNone, VNone => true
      | VStr s, VStr t => String.eqb s t
      | _, _ => false
      end
  end.

(** [a != b] *)
Definition py_ne (a b : PyValue) : bool := negb (py_eq a b).

(** The three-way outcome behind [<], [<=], [>], [>=]: numbers compare with
    numbers, strings with strings by code point, anything else (in particular
    [None] on either side) raises [TypeError]. *)
Definition py_order (a b : PyValue) : Result (option comparison) :=
  match as_num a, as_num b with
  | Some x, Some y => Ok (num_compare x y)
  | _, _ =>
      match a, b with
      | VStr s, VStr t => Ok (Some (String.compare s t))
      | _, _ => Raise TypeError
      end
  end.

Definition py_gt (a b : PyValue) : Result bool :=
  c <- py_order a b ;;
  Ok match c with Some Gt => true | _ => false end.

Definition py_ge (a b : PyValue) : Result bool :=
  c <- py_order a b ;;
  Ok match c with Some Gt | Some Eq => true | _ => false end.

Definition py_lt (a b : PyValue) : Result bool :=
  c <- py_order a b ;;
  Ok match c with Some Lt => true | _ => false end.

Definition py_le (a b : PyValue) : Result bool :=
  c <- py_order a b ;;
  Ok match c with Some Lt | Some Eq => true | _ => false end.

(** [bool(v)] (truthiness) *)
Definition py_bool (v : PyValue) : bool :=
  match v with
  | VNone => false
  | VBool b => b
  | VInt z => negb (z =? 0)
  | VFloat (S754_zero _) => false
  | VFloat _ => true
  | VStr s => negb (String.eqb s "")
  end.

(** [v is None] *)
Definition is_None (v : PyValue) : bool :=
  match v with
  | VNone => true
  | _ => false
  end.

(** ** Builtin conversions *)

(** *** [int(str)], base 10 *)

(** Characters skipped around an integer literal: the ASCII white space of the
    C parser, and the two code points below U+0100 that the Unicode front end
    rewrites to a blank (U+0085, U+00A0). *)
Definition int_space (a : ascii) : bool :=
  let n := nat_of_ascii a in
  (((9 <=? n) && (n <=? 13)) || (n =? 32) || (n =? 133) || (n =? 160))%nat.

Definition digit_value (a : ascii) : option Z :=
  let n := nat_of_ascii a in
  if ((48 <=? n) && (n <=? 57))%nat then Some (Z.of_nat (n - 48)) else None.

Fixpoint skip_spaces (cs : list ascii) : list ascii :=
  match cs with
  | a :: cs' => if int_space a then skip_spaces cs' else cs
  | [] => []
  end.

Inductive digit_state : Type :=
  | AtStart
  | AfterDigit
  | AfterUnderscore.

(** The digit run of a literal: digits with single underscores between them.
    Returns the value, the number of digits and the unread rest. *)
Fixpoint digit_run (st : digit_state) (acc : Z) (count : nat) (cs : list ascii)
  : option (Z * nat * list ascii) :=
  let stop := match st with
              | AfterDigit => Some (acc, count, cs)
              | _ => None
              end in
  match cs with
  | [] => stop
  | a :: cs' =>
      match digit_value a with
      | Some d => digit_run AfterDigit (10 * acc + d) (S count) cs'
      | None =>
          if Ascii.eqb a "_"%char then
            match st with
            | AfterDigit => digit_run AfterUnderscore acc count cs'
            | _ => None
            end
          else stop
      end
  end.

(** [sys.int_info.default_max_str_digits] *)
Definition max_str_digits : nat := 4300.

Definition int_of_str (s : string) : Result Z :=
  let cs := skip_spaces (list_ascii_of_string s) in
  let '(negative, cs) :=
    match cs with
    | a :: cs' =>
        if Ascii.eqb a "-"%char then (true, cs')
        else if Ascii.eqb a "+"%char then (false, cs')
        else (false, cs)
    | [] => (false, cs)
    end in
  match digit_run AtStart 0 0 cs with
  | Some (z, count, rest) =>
      match skip_spaces rest with
      | [] =>
          if (max_str_digits <? count)%nat then Raise ValueError
          else Ok (if negative then - z else z)
      | _ :: _ => Raise ValueError
      end
  | None => Raise ValueError
  end.

(** *** Text of floats *)

(** Parsing a float literal and printing the shortest round-tripping decimal
    are the interpreter's business; the conditions only pass values through
    them. *)
Class FloatText : Type := {
  float_of_str : string -> Result spec_float;
  repr_float : spec_float -> string
}.

(** *** [int(v)], [float(v)], [str(v)] *)

Definition int_of_float (f : spec_float) : Result Z :=
  match f with
  | S754_nan => Raise ValueError
  | S754_infinity _ => Raise OverflowError
  | S754_zero _ => Ok 0
  | S754_finite s m e =>
      let q := if 0 <=? e then Z.pos m * 2 ^ e else Z.pos m / 2 ^ (- e) in
      Ok (if s then - q else q)
  end.

Definition float_of_int (z : Z) : Result spec_float :=
  match binary_normalize binary64_prec binary64_emax z 0 false with
  | S754_infinity _ => Raise OverflowError
  | f => Ok f
  end.

Definition py_int (v : PyValue) : Result PyValue :=
  match v with
  | VNone => Raise TypeError
  | VBool b => Ok (VInt (if b then 1 else 0))
  | VInt z => Ok (VInt z)
  | VFloat f => z <- int_of_float f ;; Ok (VInt z)
  | VStr s => z <- int_of_str s ;; Ok (VInt z)
  end.

Definition py_float `{FloatText} (v : PyValue) : Result PyValue :=
  match v with
  | VNone => Raise TypeError
  | VBool b => f <- float_of_int (if b then 1 else 0) ;; Ok (VFloat f)
  | VInt z => f <- float_of_int z ;; Ok (VFloat f)
  | VFloat f => Ok (VFloat f)
  | VStr s => f <- float_of_str s ;; Ok (VFloat f)
  end.

Fixpoint digits_of_pos (fuel : nat) (n : Z) (acc : string) : string :=
  match fuel with
  | O => acc
  | S fuel' =>
      let acc' := String (ascii_of_nat (48 + Z.to_nat (n mod 10))) acc in
      if n / 10 =? 0 then acc' else digits_of_pos fuel' (n / 10) acc'
  end.

Definition str_of_int (z : Z) : string :=
  let body := digits_of_pos (S (Z.to_nat (Z.log2 (Z.abs z)))) (Z.abs z) "" in
  if z <? 0 then String "-"%char body else body.

Definition py_str `{FloatText} (v : PyValue) : Result PyValue :=
  match v with
  | VNone => Ok (VStr "None")
  | VBool b => Ok (VStr (if b then "True" else "False"))
  | VInt z => Ok (VStr (str_of_int z))
  | VFloat f => Ok (VStr (repr_float f))
  | VStr s => Ok (VStr s)
  end.

(** ** The condition classes of [utility.py] *)

(** The comparison operators share one dispatch on the operator string. *)
Definition operator_known (op : string) : bool :=
  str_in op ["="; "=="; "!="; "<>"; ">"; ">="; "<"; "<="].

Module AttributeChangeCondition.

Record t : Type := {
  _device_id : Z;
  _attr_name : string;
  _prev_value : PyValue;
  _curr_value : PyValue
}.

Definition __init__ (device_id : Z) (attr_name : string) : t :=
  {| _device_id := device_id;
     _attr_name := attr_name;
     _prev_value := VNone;
     _curr_value := VNone |}.

Definition on_device_event (self : t) (device_id : Z) (attr_name : string)
    (new_value : PyValue) : t :=
  if (_device_id self =? device_id) && String.eqb (_attr_name self) attr_name
  then {| _device_id := _device_id self;
          _attr_name := _attr_name self;
          _prev_value := _curr_value self;
          _curr_value := new_value |}
  else self.

Definition get_device_ids (self : t) : list Z := [_device_id self].

Definition evaluate (self : t) : bool :=
  py_ne (_prev_value self) (_curr_value self).

End AttributeChangeCondition.

Module DynamicDeviceAttributeCondition.

Record t : Type := {
  _left_device_id : Z;
  _left_attr_name : string;
  _right_device_id : Z;
  _right_attr_name : string;
  _operator : string;
  _left_value : PyValue;
  _right_value : PyValue
}.

Definition __init__ (first : Z * string) (operator : string)
    (second : Z * string) : t :=
  {| _left_device_id := fst first;
     _left_attr_name := snd first;
     _right_device_id := fst second;
     _right_attr_name := snd second;
     _operator := operator;
     _left_value := VNone;
     _right_value := VNone |}.

Definition set_left (self : t) (v : PyValue) : t :=
  {| _left_device_id := _left_device_id self;
     _left_attr_name := _left_attr_name self;
     _right_device_id := _right_device_id self;
     _right_attr_name := _right_attr_name self;
     _operator := _operator self;
     _left_value := v;
     _right_value := _right_value self |}.

Definition set_right (self : t) (v : PyValue) : t :=
  {| _left_device_id := _left_device_id self;
     _left_attr_name := _left_attr_name self;
     _right_device_id := _right_device_id self;
     _right_attr_name := _right_attr_name self;
     _operator := _operator self;
     _left_value := _left_value self;
     _right_value := v |}.

Definition on_device_event (self : t) (device_id : Z) (attr_name : string)
    (new_value : PyValue) : t :=
  if (device_id =? _left_device_id self)
     && String.eqb attr_name (_left_attr_name self)
  then set_left self new_value
  else if (device_id =? _right_device_id self)
          && String.eqb attr_name (_right_attr_name self)
  then set_right self new_value
  else self.

Definition get_device_ids (self : t) : list Z :=
  [_left_device_id self; _right_device_id self].

(** The guard of the four ordering cases. *)
Definition both_seen (self : t) : bool :=
  negb (is_None (_left_value self)) && negb (is_None (_right_value self)).

Definition evaluate (self : t) : Result bool :=
  let op := _operator self in
  let l := _left_value self in
  let r := _right_value self in
  if String.eqb op "=" || String.eqb op "==" then Ok (py_eq l r)
  else if String.eqb op "!=" || String.eqb op "<>" then Ok (py_ne l r)
  else if String.eqb op ">" then
    if both_seen self then py_gt l r else Ok false
  else if String.eqb op ">=" then
    if both_seen self then py_ge l r else Ok false
  else if String.eqb op "<" then
    if both_seen self then py_lt l r else Ok false
  else if String.eqb op "<=" then
    if both_seen self then py_le l r else Ok false
  else Raise ValueError.

End DynamicDeviceAttributeCondition.

Module StaticDeviceAttributeCondition.

Record t : Type := {
  _device_id : Z;
  _attr_name : string;
  _device_value : PyValue;
  _static_value : PyValue;
  _operator : string
}.

Definition __init__ (device_id : Z) (attr_name : string) (operator : string)
    (static_value : PyValue) : t :=
  {| _device_id := device_id;
     _attr_name := attr_name;
     _device_value := VNone;
     _static_value := static_value;
     _operator := operator |}.

Definition truthy_words : list string :=
  ["true"; "1"; "yes"; "on"; "active"; "open"].

(** The body of the [try] block. *)
Definition cast_attempt `{FloatText} (self : t) (value : PyValue)
  : Result PyValue :=
  if isinstance (_static_value self) cls_bool then
    match value with
    | VStr s => Ok (VBool (str_in (py_lower s) truthy_words))
    | _ => Ok (VBool (py_bool value))
    end
  else if isinstance (_static_value self) (type_of_class cls_int) then
    py_int value
  else if isinstance (_static_value self) (type_of_class cls_float) then
    py_float value
  else if isinstance (_static_value self) (type_of_class cls_str) then
    py_str value
  else Ok value.

Definition _cast_value `{FloatText} (self : t) (value : PyValue)
  : Result PyValue :=
  if is_None value then Ok VNone
  else
    match cast_attempt self value with
    | Ok v => Ok v
    | Raise ValueError | Raise TypeError => Ok value
    | Raise e => Raise e
    end.

Definition on_device_event `{FloatText} (self : t) (device_id : Z)
    (attr_name : string) (new_value : PyValue) : Result t :=
  if (device_id =? _device_id self) && String.eqb (_attr_name self) attr_name
  then
    v <- _cast_value self new_value ;;
    Ok {| _device_id := _device_id self;
          _attr_name := _attr_name self;
          _device_value := v;
          _static_value := _static_value self;
          _operator := _operator self |}
  else Ok self.

Definition get_device_ids (self : t) : list Z := [_device_id self].

Definition evaluate (self : t) : Result bool :=
  let op := _operator self in
  let d := _device_value self in
  let s := _static_value self in
  if String.eqb op "=" || String.eqb op "==" then Ok (py_eq d s)
  else if String.eqb op "!=" || String.eqb op "<>" then Ok (py_ne d s)
  else if String.eqb op ">" then py_gt d s
  else if String.eqb op ">=" then py_ge d s
  else if String.eqb op "<" then py_lt d s
  else if String.eqb op "<=" then py_le d s
  else Raise ValueError.

End StaticDeviceAttributeCondition.

(** ** The condition interface

    [HubitatCondition] is abstract: the plugin only calls [get_device_ids] and
    [on_device_event] (and the rule engine [evaluate]).  A handler acts on its
    own object and may raise. *)
Class HubitatCondition (C : Type) : Type := {
  on_device_event : C -> Z -> string -> PyValue -> Result C;
  get_device_ids : C -> list Z;
  evaluate : C -> Result bool
}.

#[export] Instance AttributeChange_condition
  : HubitatCondition AttributeChangeCondition.t := {
  on_device_event self d a v :=
    Ok (AttributeChangeCondition.on_device_event self d a v);
  get_device_ids := AttributeChangeCondition.get_device_ids;
  evaluate self := Ok (AttributeChangeCondition.evaluate self)
}.

#[export] Instance Dynamic_condition
  : HubitatCondition DynamicDeviceAttributeCondition.t := {
  on_device_event self d a v :=
    Ok (DynamicDeviceAttributeCondition.on_device_event self d a v);
  get_device_ids := DynamicDeviceAttributeCondition.get_device_ids;
  evaluate := DynamicDeviceAttributeCondition.evaluate
}.

#[export] Instance Static_condition `{FloatText}
  : HubitatCondition StaticDeviceAttributeCondition.t := {
  on_device_event := StaticDeviceAttributeCondition.on_device_event;
  get_device_ids := StaticDeviceAttributeCondition.get_device_ids;
  evaluate := StaticDeviceAttributeCondition.evaluate
}.

(** Objects of different classes share one heap. *)
#[export] Instance sum_condition (A B : Type)
    `{HubitatCondition A} `{HubitatCondition B} : HubitatCondition (A + B) := {
  on_device_event self d a v :=
    match self with
    | inl x => x' <- on_device_event x d a v ;; Ok (inl x')
    | inr y => y' <- on_device_event y d a v ;; Ok (inr y')
    end;
  get_device_ids self :=
    match self with
    | inl x => get_device_ids x
    | inr y => get_device_ids y
    end;
  evaluate self :=
    match self with
    | inl x => evaluate x
    | inr y => evaluate y
    end
}.

(** The conditions this repository defines. *)
Definition Condition : Type :=
  AttributeChangeCondition.t
  + (DynamicDeviceAttributeCondition.t + StaticDeviceAttributeCondition.t).

(** ** Insertion-ordered dictionaries with integer keys *)

Section Dict.

Context {V : Type}.

Definition dict : Type := list (Z * V).

(** [d.get(k)] *)
Fixpoint dict_get (k : Z) (d : dict) : option V :=
  match d with
  | [] => None
  | (k', v) :: d' => if k' =? k then Some v else dict_get k d'
  end.

(** [k in d] *)
Definition dict_contains (k : Z) (d : dict) : bool :=
  match dict_get k d with
  | Some _ => true
  | None => false
  end.

(** [d[k]] *)
Definition dict_getitem (k : Z) (d : dict) : Result V :=
  match dict_get k d with
  | Some v => Ok v
  | None => Raise KeyError
  end.

(** [d[k] = v]: an existing key keeps its position, a new key goes last. *)
Fixpoint dict_setitem (k : Z) (v : V) (d : dict) : dict :=
  match d with
  | [] => [(k, v)]
  | (k', v') :: d' =>
      if k' =? k then (k', v) :: d' else (k', v') :: dict_setitem k v d'
  end.

Fixpoint dict_remove (k : Z) (d : dict) : dict :=
  match d with
  | [] => []
  | (k', v') :: d' => if k' =? k then d' else (k', v') :: dict_remove k d'
  end.

(** [del d[k]] *)
Definition dict_delitem (k : Z) (d : dict) : Result dict :=
  if dict_contains k d then Ok (dict_remove k d) else Raise KeyError.

(** [d.keys()], [d.values()], in insertion order *)
Definition dict_keys (d : dict) : list Z := map fst d.
Definition dict_values (d : dict) : list V := map snd d.

End Dict.

Arguments dict V : clear implicits.

(** A [for] loop whose body may raise. *)
Fixpoint for_each {A S : Type} (body : S -> A -> Result S) (l : list A) (s : S)
  : Result S :=
  match l with
  | [] => Ok s
  | a :: l' => s' <- body s a ;; for_each body l' s'
  end.

(** ** [HubitatPlugin] *)

(** Condition objects live in a heap and are shared by reference: the index
    buckets and the yielded batches hold references. *)
Definition loc : Type := nat.

Record HubitatDeviceEvent : Type := {
  device_id : string;
  attribute : string;
  value : PyValue
}.

Definition index : Type := dict (dict loc).

Record HubitatPlugin : Type := {
  _event_q : list (Z * string * PyValue);
  _conditions_for_device : index
}.

Definition __init__ : HubitatPlugin :=
  {| _event_q := []; _conditions_for_device := [] |}.

Definition with_index (self : HubitatPlugin) (idx : index) : HubitatPlugin :=
  {| _event_q := _event_q self; _conditions_for_device := idx |}.

Definition with_queue (self : HubitatPlugin) (q : list (Z * string * PyValue))
  : HubitatPlugin :=
  {| _event_q := q; _conditions_for_device := _conditions_for_device self |}.

(** The JSON object a route handler returns. *)
Definition response : Type := list (string * string).

(** [_on_device_event]: the queue is unbounded, so [put] completes at once. *)
Definition _on_device_event (self : HubitatPlugin) (event : HubitatDeviceEvent)
  : Result (HubitatPlugin * response) :=
  id <- int_of_str (device_id event) ;;
  let self' := with_queue self (_event_q self ++ [(id, attribute event, value event)]) in
  Ok (self', [("result", "success")]).

Section Plugin.

Context {C : Type} `{HubitatCondition C}.

(** [AbstractCondition.instance_id], assigned by the rule engine when the
    object is built and never reassigned. *)
Variable instance_id : loc -> Z.

Definition heap : Type := loc -> C.

Definition heap_set (h : heap) (c : loc) (o : C) : heap :=
  fun r => if Nat.eqb r c then o else h r.

(** Body of the loop of [register_condition]. *)
Definition register_device (condition : loc) (idx : index) (device_id : Z)
  : Result index :=
  let idx1 :=
    if negb (dict_contains device_id idx)
    then dict_setitem device_id [] idx else idx in
  bucket <- dict_getitem device_id idx1 ;;
  if negb (dict_contains (instance_id condition) bucket)
  then
    Ok (dict_setitem device_id
          (dict_setitem (instance_id condition) condition bucket) idx1)
  else Ok idx1.

Definition register_condition (h : heap) (self : HubitatPlugin)
    (condition : loc) : Result HubitatPlugin :=
  idx <- for_each (register_device condition)
           (get_device_ids (h condition)) (_conditions_for_device self) ;;
  Ok (with_index self idx).

(** Body of the loop of [unregister_condition]. *)
Definition unregister_device (condition : loc) (idx : index) (device_id : Z)
  : Result index :=
  if dict_contains device_id idx then
    bucket <- dict_getitem device_id idx ;;
    if dict_contains (instance_id condition) bucket then
      bucket' <- dict_delitem (instance_id condition) bucket ;;
      let idx1 := dict_setitem device_id bucket' idx in
      bucket'' <- dict_getitem device_id idx1 ;;
      if (List.length bucket'' =? 0)%nat
      then dict_delitem device_id idx1
      else Ok idx1
    else Ok idx
  else Ok idx.

Definition unregister_condition (h : heap) (self : HubitatPlugin)
    (condition : loc) : Result HubitatPlugin :=
  idx <- for_each (unregister_device condition)
           (get_device_ids (h condition)) (_conditions_for_device self) ;;
  Ok (with_index self idx).

(** *** The dispatch loop [run] *)

(** The inner [for] loop: notify each condition of the bucket and collect it.
    An exception leaves the loop at once; the third component carries it,
    the first two are the heap and the list as they stand at that point. *)
Fixpoint notify (h : heap) (device_id : Z) (attr_name : string)
    (new_value : PyValue) (todo : list loc) (conditions : list loc)
  : heap * list loc * option exc :=
  match todo with
  | [] => (h, conditions, None)
  | condition :: todo' =>
      match on_device_event (h condition) device_id attr_name new_value with
      | Ok o =>
          notify (heap_set h condition o) device_id attr_name new_value
            todo' (conditions ++ [condition])
      | Raise e => (h, conditions, Some e)
      end
  end.

(** [self._conditions_for_device.get(device_id, {}).values()] *)
Definition bucket_values (idx : index) (device_id : Z) : list loc :=
  dict_values match dict_get device_id idx with
              | Some bucket => bucket
              | None => []
              end.

(** What one turn of the [while True] loop does. *)
Inductive turn : Type :=
  | Waiting
    (* the queue is empty: [get] suspends *)
  | Yield (conditions : list loc) (h : heap) (self : HubitatPlugin)
    (* a batch goes to the rule engine *)
  | Skip (h : heap) (self : HubitatPlugin)
    (* nothing to report, next turn *)
  | Abort (e : exc) (conditions : list loc) (h : heap) (self : HubitatPlugin).
    (* an exception leaves the generator, which is then finished *)

Definition run_turn (h : heap) (self : HubitatPlugin) : turn :=
  match _event_q self with
  | [] => Waiting
  | (device_id, attr_name, new_value) :: q =>
      let self' := with_queue self q in
      match notify h device_id attr_name new_value
              (bucket_values (_conditions_for_device self) device_id) [] with
      | (h', conditions, Some e) => Abort e conditions h' self'
      | (h', conditions, None) =>
          if (0 <? List.length conditions)%nat
          then Yield conditions h' self'
          else Skip h' self'
      end
  end.

(** How the generator stands once the queue holds nothing more for it. *)
Inductive status : Type :=
  | Suspended
  | Finished (e : exc).

(** The loop, turn after turn, on the events queued so far: the batches
    yielded in order, the final heap and plugin, and the status. *)
Fixpoint run_turns (fuel : nat) (h : heap) (self : HubitatPlugin)
  : list (list loc) * heap * HubitatPlugin * status :=
  match fuel with
  | O => ([], h, self, Suspended)
  | S fuel' =>
      match run_turn h self with
      | Waiting => ([], h, self, Suspended)
      | Yield conditions h' self' =>
          let '(out, h'', self'', st) := run_turns fuel' h' self' in
          (conditions :: out, h'', self'', st)
      | Skip h' self' => run_turns fuel' h' self'
      | Abort e _ h' self' => ([], h', self', Finished e)
      end
  end.

Definition run (h : heap) (self : HubitatPlugin)
  : list (list loc) * heap * HubitatPlugin * status :=
  run_turns (List.length (_event_q self)) h self.

End Plugin.

Arguments heap C : clear implicits.

(** ** [driver.py] and [client.py]: capabilities and devices *)

(** Exceptions of the client and the facade: [AttributeError], the plain
    [Exception], and the builtin ones. *)
Inductive client_exc : Type :=
  | AttributeError
  | Exception
  | Builtin (e : exc).

Inductive Outcome (A : Type) : Type :=
  | Returns (a : A)
  | Raises (e : client_exc).
Arguments Returns {A} a.
Arguments Raises {A} e.

(** Insertion-ordered dictionaries with string keys. *)
Section StrDict.

Context {V : Type}.

Definition sdict : Type := list (string * V).

Fixpoint sdict_get (k : string) (d : sdict) : option V :=
  match d with
  | [] => None
  | (k', v) :: d' => if String.eqb k' k then Some v else sdict_get k d'
  end.

Fixpoint sdict_setitem (k : string) (v : V) (d : sdict) : sdict :=
  match d with
  | [] => [(k, v)]
  | (k', v') :: d' =>
      if String.eqb k' k then (k', v) :: d' else (k', v') :: sdict_setitem k v d'
  end.

Definition sdict_values (d : sdict) : list V := map snd d.

End StrDict.

Arguments sdict V : clear implicits.

Module CapabilityAttribute.
Record t : Type := {
  name : string;
  value_type : string;
  notes : option string
}.
End CapabilityAttribute.

Module CapabilityCommandArgument.
Record t : Type := {
  name : string;
  value_type : string;
  notes : option string
}.
End CapabilityCommandArgument.

Module CapabilityCommand.
Record t : Type := {
  name : string;
  arguments : list CapabilityCommandArgument.t
}.
End CapabilityCommand.

Module DeviceCapability.
Record t : Type := {
  name : string;
  attributes : list CapabilityAttribute.t;
  commands : list CapabilityCommand.t
}.
End DeviceCapability.

Module DeviceAttribute.
Record t : Type := {
  name : string;
  current_value : PyValue;
  data_type : option string;
  values : option (list string)
}.
End DeviceAttribute.

Module HubitatDevice.

Record t : Type := {
  id : string;
  name : string;
  date : option string;
  label : string;
  type : string;
  room : option string;
  model : option string;
  manufacturer : option string;
  attributes : list DeviceAttribute.t;
  capabilities : sdict DeviceCapability.t
}.

(** [_parse_capabilities]: the dictionary built, and the warnings logged.
    The lookup stands for the test [name in capabilities_map] and the
    subscript that follows it. *)
Definition _parse_capabilities (capability_names : list string)
    (capabilities_map : sdict DeviceCapability.t)
  : sdict DeviceCapability.t * list string :=
  fold_left
    (fun (st : sdict DeviceCapability.t * list string) name =>
       match sdict_get name capabilities_map with
       | Some cap => (sdict_setitem name cap (fst st), snd st)
       | None =>
           (fst st,
            snd st
            ++ [String.append "Unknown capability '"
                  (String.append name "' - skipping")])
       end)
    capability_names ([], []).

Definition has_attribute (self : t) (attr_name : string) : bool :=
  existsb (fun attr => String.eqb (DeviceAttribute.name attr) attr_name)
    (attributes self).

Definition has_command (self : t) (command_name : string) : bool :=
  existsb
    (fun capability =>
       existsb (fun cmd => String.eqb (CapabilityCommand.name cmd) command_name)
         (DeviceCapability.commands capability))
    (sdict_values (capabilities self)).

Fixpoint find_attr_value (attrs : list DeviceAttribute.t) (attr_name : string)
  : Outcome PyValue :=
  match attrs with
  | [] => Raises AttributeError
  | attr :: attrs' =>
      if String.eqb (DeviceAttribute.name attr) attr_name
      then Returns (DeviceAttribute.current_value attr)
      else find_attr_value attrs' attr_name
  end.

Definition get_attr_value (self : t) (attr_name : string) : Outcome PyValue :=
  find_attr_value (attributes self) attr_name.

End HubitatDevice.

(** *** [HubitatClient.send_command] *)





Definition lift {A : Type} (r : Result A) : Outcome A :=
  match r with
  | Ok a => Returns a
  | Raise e => Raises (Builtin e)
  end.

Section Client.

Context `{FloatText}.

(** [self._address], and the HTTP request of [_make_request]. *)
Variable _address : string.
Variable _make_request : string -> Outcome unit.



End Client.

(** ** [utility.py]: the device facade *)

Module Attribute.

(** The plugin and the client an [Attribute] carries are the shared ones;
    its own state is the pair below. *)
Record t : Type := {
  _device_id : Z;
  _attr_name : string
}.

Definition changes (self : t) : AttributeChangeCondition.t :=
  AttributeChangeCondition.__init__ (_device_id self) (_attr_name self).

(** [other] is another [Attribute] or a value. *)
Definition _compare (self : t) (other : t + PyValue) (op : string)
  : DynamicDeviceAttributeCondition.t + StaticDeviceAttributeCondition.t :=
  match other with
  | inl attr =>
      inl (DynamicDeviceAttributeCondition.__init__
             (_device_id self, _attr_name self) op
             (_device_id attr, _attr_name attr))
  | inr v =>
      inr (StaticDeviceAttributeCondition.__init__
             (_device_id self) (_attr_name self) op v)
  end.

Definition __gt__ (self : t) (other : t + PyValue) := _compare self other ">".
Definition __ge__ (self : t) (other : t + PyValue) := _compare self other ">=".
Definition __lt__ (self : t) (other : t + PyValue) := _compare self other "<".
Definition __le__ (self : t) (other : t + PyValue) := _compare self other "<=".
Definition __eq__ (self : t) (other : t + PyValue) := _compare self other "=".
Definition __ne__ (self : t) (other : t + PyValue) := _compare self other "!=".

End Attribute.

Module Command.

Record t : Type := {
  _device_id : Z;
  _command_name : string
}.


End Command.

Module Device.

Record t : Type := {
  _device : HubitatDevice.t
}.

Definition __getattr__ (self : t) (attr_name : string)
  : Outcome (Attribute.t + Command.t) :=
  if HubitatDevice.has_attribute (_device self) attr_name then
    match int_of_str (HubitatDevice.id (_device self)) with
    | Ok z =>
        Returns (inl {| Attribute._device_id := z;
                        Attribute._attr_name := attr_name |})
    | Raise e => Raises (Builtin e)
    end
  else if HubitatDevice.has_command (_device self) attr_name then
    match int_of_str (HubitatDevice.id (_device self)) with
    | Ok z =>
        Returns (inr {| Command._device_id := z;
                        Command._command_name := attr_name |})
    | Raise e => Raises (Builtin e)
    end
  else Raises AttributeError.

End Device.

(** ** Vocabulary of the properties *)

(** An [AttributeChangeCondition] after a run of events for its own
    device and attribute, carrying the values [vs] in order. *)
Definition observe (c : AttributeChangeCondition.t) (vs : list PyValue)
  : AttributeChangeCondition.t :=
  fold_left
    (fun c v =>
       AttributeChangeCondition.on_device_event c
         (AttributeChangeCondition._device_id c)
         (AttributeChangeCondition._attr_name c) v)
    vs c.

(** How many pairwise different (by [==]) values a run of events carried. *)
Fixpoint count_distinct (seen : list PyValue) (vs : list PyValue) : nat :=
  match vs with
  | [] => O
  | v :: vs' =>
      if existsb (py_eq v) seen then count_distinct seen vs'
      else S (count_distinct (v :: seen) vs')
  end.

Section IndexVocabulary.

Context {C : Type} `{HubitatCondition C}.
Variable instance_id : loc -> Z.

(** Device [d] has a bucket, and the bucket has the key [i]. *)
Definition has_entry (idx : index) (d i : Z) : Prop :=
  exists bucket, dict_get d idx = Some bucket /\ dict_contains i bucket = true.

(** Keys are unique, in the index and in each bucket. *)
Definition nodup_keys (idx : index) : Prop :=
  NoDup (dict_keys idx) /\ Forall (fun e => NoDup (dict_keys (snd e))) idx.

Definition no_empty_bucket (idx : index) : Prop :=
  Forall (fun e => snd e <> []) idx.

(** Every bucket entry sits under the instance id of its condition. *)
Definition keyed_by_instance_id (idx : index) : Prop :=
  Forall (fun e => Forall (fun ir => fst ir = instance_id (snd ir)) (snd e))
    idx.

(** The three invariants of the index together. *)
Definition index_ok (idx : index) : Prop :=
  nodup_keys idx /\ no_empty_bucket idx /\ keyed_by_instance_id idx.

(** The instance id [i] occurs in no bucket. *)
Definition unused_id (i : Z) (idx : index) : Prop :=
  Forall (fun e => dict_contains i (snd e) = false) idx.

(** The index states the plugin can be in: from the empty index of
    [__init__], by calls of the two registration methods. *)
Inductive reachable : index -> Prop :=
  | reach_init : reachable []
  | reach_register (h : heap C) (self self' : HubitatPlugin) (c : loc) :
      reachable (_conditions_for_device self) ->
      register_condition instance_id h self c = Ok self' ->
      reachable (_conditions_for_device self')
  | reach_unregister (h : heap C) (self self' : HubitatPlugin) (c : loc) :
      reachable (_conditions_for_device self) ->
      unregister_condition instance_id h self c = Ok self' ->
      reachable (_conditions_for_device self').

(** A call of a registration method, with the heap it ran in. *)
Inductive call : Type :=
  | Register (h : heap C) (c : loc)
  | Unregister (h : heap C) (c : loc).

Definition apply_call (self : HubitatPlugin) (k : call)
  : Result HubitatPlugin :=
  match k with
  | Register h c => register_condition instance_id h self c
  | Unregister h c => unregister_condition instance_id h self c
  end.

Definition apply_calls (ks : list call) (self : HubitatPlugin)
  : Result HubitatPlugin :=
  for_each apply_call ks self.

(** The conditions registered and not unregistered since. *)
Definition track (acc : list loc) (k : call) : list loc :=
  match k with
  | Register _ c => c :: remove Nat.eq_dec c acc
  | Unregister _ c => remove Nat.eq_dec c acc
  end.

Definition currently_registered (ks : list call) : list loc :=
  fold_left track ks [].

(** Each call sees, for its condition, the device ids [ids_of] gives. *)
Definition stable_device_ids (ids_of : loc -> list Z) (ks : list call)
  : Prop :=
  Forall (fun k =>
            match k with
            | Register h c | Unregister h c =>
                get_device_ids (h c) = ids_of c
            end) ks.

(** The index holds exactly the entries of the conditions in [acc], each
    under the device ids [ids_of] gives it. *)
Definition mirrors (ids_of : loc -> list Z) (idx : index) (acc : list loc)
  : Prop :=
  index_ok idx
  /\ forall d i,
      has_entry idx d i
      <-> exists c, In c acc /\ instance_id c = i /\ In d (ids_of c).

(** What one pass of each loop body makes of the index, when it returns. *)
Definition insert_under (c : loc) (idx : index) (d : Z) : index :=
  match dict_get d idx with
  | None => dict_setitem d [(instance_id c, c)] idx
  | Some bucket =>
      if dict_contains (instance_id c) bucket then idx
      else dict_setitem d (dict_setitem (instance_id c) c bucket) idx
  end.

Definition remove_under (c : loc) (idx : index) (d : Z) : index :=
  match dict_get d idx with
  | None => idx
  | Some bucket =>
      if dict_contains (instance_id c) bucket then
        match dict_remove (instance_id c) bucket with
        | [] => dict_remove d idx
        | bucket' => dict_setitem d bucket' idx
        end
      else idx
  end.

(** What removing the key [i] under the devices [ids] leaves of a bucket
    and of an index. *)
Definition strip_bucket (ids : list Z) (i : Z) (e : Z * dict loc)
  : list (Z * dict loc) :=
  if existsb (Z.eqb (fst e)) ids && dict_contains i (snd e)
  then match dict_remove i (snd e) with
       | [] => []
       | bucket' => [(fst e, bucket')]
       end
  else [e].

Definition strip (ids : list Z) (i : Z) (idx : index) : index :=
  flat_map (strip_bucket ids i) idx.

End IndexVocabulary.


(** A subclass of [HubitatCondition] whose handler raises: the interface
    leaves [on_device_event] to the subclass. *)
Record FaultyCondition : Type := { faulty_device_id : Z }.

#[export] Instance Faulty_condition : HubitatCondition FaultyCondition := {
  on_device_event _ _ _ _ := Raise RuntimeError;
  get_device_ids self := [faulty_device_id self];
  evaluate _ := Ok false
}.

(** Sample heaps: object [r] watches the switch of device [r]; and a heap
    where object 0 is faulty and every other object watches device 42. *)
Definition switch_heap : heap AttributeChangeCondition.t :=
  fun r => AttributeChangeCondition.__init__ (Z.of_nat r) "switch".

Definition faulty_heap : heap (FaultyCondition + AttributeChangeCondition.t) :=
  fun r =>
    match r with
    | O => inl {| faulty_device_id := 42 |}
    | S _ => inr (AttributeChangeCondition.__init__ 42 "switch")
    end.

(** A stand-in for the interpreter's float text conversions, to run the
    samples; no sample reaches it. *)
#[export] Instance sample_float_text : FloatText :=
  {| float_of_str := fun _ => Raise ValueError;
     repr_float := fun _ => "nan" |}.

Definition sample_heap : heap Condition :=
  fun r =>
    match r with
    | O => inl (AttributeChangeCondition.__init__ 42 "switch")
    | S O =>
        inr (inr (StaticDeviceAttributeCondition.__init__ 42 "switch" "="
                    (VBool true)))
    | S (S _) =>
        inr (inl (DynamicDeviceAttributeCondition.__init__ (42, "level") ">"
                    (7, "level")))
    end.

(** The batches a run over the queue [q] is to yield: for each event in
    queue order the bucket of its device, when there is one. *)
Definition expected_batches (idx : index) (q : list (Z * string * PyValue))
  : list (list loc) :=
  filter (fun batch => (0 <? List.length batch)%nat)
    (map (fun ev => bucket_values idx (fst (fst ev))) q).

(** The value of the last event of [evs] that [p] selects, [init] if none. *)
Definition latest_from (init : PyValue) (p : Z -> string -> bool)
    (evs : list (Z * string * PyValue)) : PyValue :=
  fold_left (fun acc ev => if p (fst (fst ev)) (snd (fst ev)) then snd ev else acc)
    evs init.

(** Whether the event names the pair (device id, attribute name). *)
Definition names_pair (pair : Z * string) (d : Z) (a : string) : bool :=
  (d =? fst pair) && String.eqb a (snd pair).

(** A dynamic condition after the events [evs], in order. *)
Definition feed_dynamic (c : DynamicDeviceAttributeCondition.t)
    (evs : list (Z * string * PyValue)) : DynamicDeviceAttributeCondition.t :=
  fold_left
    (fun c ev =>
       DynamicDeviceAttributeCondition.on_device_event c
         (fst (fst ev)) (snd (fst ev)) (snd ev))
    evs c.

(** Any condition after the events [evs], in order. *)
Definition feed {C : Type} `{HubitatCondition C} (o : C)
    (evs : list (Z * string * PyValue)) : Result C :=
  for_each (fun o ev => on_device_event o (fst (fst ev)) (snd (fst ev)) (snd ev))
    evs o.

(** Whether a condition of the repository tracks the pair ([d], [a]). *)
Definition tracks (o : Condition) (d : Z) (a : string) : bool :=
  match o with
  | inl x =>
      names_pair (AttributeChangeCondition._device_id x,
                  AttributeChangeCondition._attr_name x) d a
  | inr (inl y) =>
      names_pair (DynamicDeviceAttributeCondition._left_device_id y,
                  DynamicDeviceAttributeCondition._left_attr_name y) d a
      || names_pair (DynamicDeviceAttributeCondition._right_device_id y,
                     DynamicDeviceAttributeCondition._right_attr_name y) d a
  | inr (inr z) =>
      names_pair (StaticDeviceAttributeCondition._device_id z,
                  StaticDeviceAttributeCondition._attr_name z) d a
  end.

Definition is_str (v : PyValue) : bool :=
  match v with
  | VStr _ => true
  | _ => false
  end.

(** Two values the ordering operators accept together: two numbers
    (booleans count as numbers) or two strings. *)
Definition comparable (a b : PyValue) : bool :=
  match as_num a, as_num b with
  | Some _, Some _ => true
  | _, _ => is_str a && is_str b
  end.

Definition ordering_operators : list string := [">"; ">="; "<"; "<="].

(** The six comparison methods of [Attribute]. *)
Definition comparison_methods
  : list (Attribute.t -> Attribute.t + PyValue ->
          DynamicDeviceAttributeCondition.t + StaticDeviceAttributeCondition.t) :=
  [Attribute.__gt__; Attribute.__ge__; Attribute.__lt__; Attribute.__le__;
   Attribute.__eq__; Attribute.__ne__].

Definition operator_of
    (o : DynamicDeviceAttributeCondition.t + StaticDeviceAttributeCondition.t)
  : string :=
  match o with
  | inl y => DynamicDeviceAttributeCondition._operator y
  | inr z => StaticDeviceAttributeCondition._operator z
  end.

Definition is_dynamic
    (o : DynamicDeviceAttributeCondition.t + StaticDeviceAttributeCondition.t)
  : bool :=
  match o with
  | inl _ => true
  | inr _ => false
  end.

(** The warning [_parse_capabilities] logs for an unknown name. *)
Definition unknown_capability_warning (name : string) : string :=
  String.append "Unknown capability '" (String.append name "' - skipping").

Definition capability_has_command (command_name : string)
    (capability : DeviceCapability.t) : bool :=
  existsb (fun cmd => String.eqb (CapabilityCommand.name cmd) command_name)
    (DeviceCapability.commands capability).

(** A sample catalog and device: the capability [Switch] with the commands
    [on] and [off], and a device that reports [Switch] and an unknown
    capability. *)
Definition sample_catalog : sdict DeviceCapability.t :=
  [("Switch",
    {| DeviceCapability.name := "Switch";
       DeviceCapability.attributes :=
         [{| CapabilityAttribute.name := "switch";
             CapabilityAttribute.value_type := "ENUM";
             CapabilityAttribute.notes := None |}];
       DeviceCapability.commands :=
         [{| CapabilityCommand.name := "on";
             CapabilityCommand.arguments := [] |};
          {| CapabilityCommand.name := "off";
             CapabilityCommand.arguments := [] |}] |})].

Definition sample_device : HubitatDevice.t :=
  {| HubitatDevice.id := "42";
     HubitatDevice.name := "Lamp";
     HubitatDevice.date := None;
     HubitatDevice.label := "Lamp";
     HubitatDevice.type := "Virtual Switch";
     HubitatDevice.room := None;
     HubitatDevice.model := None;
     HubitatDevice.manufacturer := None;
     HubitatDevice.attributes :=
       [{| DeviceAttribute.name := "switch";
           DeviceAttribute.current_value := VStr "on";
           DeviceAttribute.data_type := None;
           DeviceAttribute.values := None |}];
     HubitatDevice.capabilities :=
       fst (HubitatDevice._parse_capabilities ["Switch"; "Teleport"]
              sample_catalog) |}.

(** * Properties *)

(** ** Condition variants *)

Lemma py_ne_None_l (v : PyValue) : py_ne VNone v = negb (is_None v).
Proof. destruct v; reflexivity. Qed.

Lemma observe_app (c : AttributeChangeCondition.t) (vs ws : list PyValue) :
  observe c (vs ++ ws) = observe (observe c vs) ws.
Proof. unfold observe. apply fold_left_app. Qed.

Lemma own_event_matches (c : AttributeChangeCondition.t) (v : PyValue) :
  AttributeChangeCondition.on_device_event c
    (AttributeChangeCondition._device_id c)
    (AttributeChangeCondition._attr_name c) v
  = {| AttributeChangeCondition._device_id := AttributeChangeCondition._device_id c;
       AttributeChangeCondition._attr_name := AttributeChangeCondition._attr_name c;
       AttributeChangeCondition._prev_value := AttributeChangeCondition._curr_value c;
       AttributeChangeCondition._curr_value := v |}.
Proof.
  unfold AttributeChangeCondition.on_device_event.
  now rewrite Z.eqb_refl, String.eqb_refl.
Qed.

(** C2, as the code has it: before any event [evaluate] is false; after a
    single event with value [v] it is already true unless [v] is [None]; after
    two or more events it is true iff the last two values differ ([!=]). *)
Theorem C2_evaluate_reflects_last_two (d : Z) (a : string) :
  let c0 := AttributeChangeCondition.__init__ d a in
  AttributeChangeCondition.evaluate (observe c0 []) = false
  /\ (forall v,
        AttributeChangeCondition.evaluate (observe c0 [v]) = negb (is_None v))
  /\ (forall vs p v,
        AttributeChangeCondition.evaluate (observe c0 (vs ++ [p; v]))
        = py_ne p v).
Proof.
  cbn zeta. split; [reflexivity|]. split.
  - intros v. unfold observe. cbn [fold_left].
    rewrite own_event_matches. unfold AttributeChangeCondition.evaluate.
    cbn. apply py_ne_None_l.
  - intros vs p v. rewrite observe_app.
    unfold observe at 1. cbn [fold_left].
    rewrite !own_event_matches. reflexivity.
Qed.

(** C2, as stated, fails: one event carrying ["on"] is a single distinct
    value, and [evaluate] is true. *)
Lemma C2_single_event_counterexample :
  (count_distinct [] [VStr "on"] < 2)%nat
  /\ AttributeChangeCondition.evaluate
       (observe (AttributeChangeCondition.__init__ 42 "switch") [VStr "on"])
     = true.
Proof. split; [cbn; lia | reflexivity]. Qed.

(** *** Missing operands *)

Lemma py_order_None_l (v : PyValue) : py_order VNone v = Raise TypeError.
Proof. destruct v; reflexivity. Qed.

Lemma py_order_total_on_seen (l r : PyValue) :
  match py_order l r with
  | Ok _ => True
  | Raise e => e = TypeError
  end.
Proof.
  unfold py_order. destruct (as_num l), (as_num r); try exact I;
    destruct l, r; try exact I; reflexivity.
Qed.

(** The dynamic variant does what C3 asks: with an operand never observed,
    the ordering operators give false and the (in)equalities a boolean. *)
Lemma Dynamic_missing_operand (c : DynamicDeviceAttributeCondition.t) :
  DynamicDeviceAttributeCondition.both_seen c = false ->
  operator_known (DynamicDeviceAttributeCondition._operator c) = true ->
  exists b, DynamicDeviceAttributeCondition.evaluate c = Ok b
            /\ (str_in (DynamicDeviceAttributeCondition._operator c)
                  [">"; ">="; "<"; "<="] = true -> b = false).
Proof.
  intros Hseen Hop. unfold DynamicDeviceAttributeCondition.evaluate.
  rewrite Hseen. unfold operator_known in Hop. cbn [str_in] in *.
  set (op := DynamicDeviceAttributeCondition._operator c) in *.
  destruct (String.eqb op "=") eqn:E1; [eexists; split; [reflexivity|]|].
  { apply String.eqb_eq in E1. rewrite E1. cbn. discriminate. }
  destruct (String.eqb op "==") eqn:E2; [eexists; split; [reflexivity|]|].
  { apply String.eqb_eq in E2. rewrite E2. cbn. discriminate. }
  destruct (String.eqb op "!=") eqn:E3; [eexists; split; [reflexivity|]|].
  { apply String.eqb_eq in E3. rewrite E3. cbn. discriminate. }
  destruct (String.eqb op "<>") eqn:E4; [eexists; split; [reflexivity|]|].
  { apply String.eqb_eq in E4. rewrite E4. cbn. discriminate. }
  cbn [orb].
  destruct (String.eqb op ">"); [eexists; split; reflexivity|].
  destruct (String.eqb op ">="); [eexists; split; reflexivity|].
  destruct (String.eqb op "<"); [eexists; split; reflexivity|].
  destruct (String.eqb op "<="); [eexists; split; reflexivity|].
  discriminate.
Qed.

(** C3: the static variant has no such guard.  Before any event
    its device value is [None], and each ordering operator raises [TypeError]
    whatever the static value. *)
Theorem C3_static_ordering_raises_on_missing_operand :
  Forall
    (fun op =>
       forall (d : Z) (a : string) (s : PyValue),
         StaticDeviceAttributeCondition.evaluate
           (StaticDeviceAttributeCondition.__init__ d a op s)
         = Raise TypeError)
    [">"; ">="; "<"; "<="].
Proof.
  repeat constructor; intros d a s;
    unfold StaticDeviceAttributeCondition.evaluate,
      StaticDeviceAttributeCondition.__init__, py_gt, py_ge, py_lt, py_le;
    cbn; now rewrite py_order_None_l.
Qed.

(** *** Casting in the static variant *)

Lemma isinstance_metaclass (v : PyValue) (c : PyClass) :
  isinstance v (type_of_class c) = false.
Proof. destruct v; reflexivity. Qed.

(** Whenever the static value is not a boolean, no cast takes place. *)
Lemma cast_value_is_identity_off_bool `{FloatText}
    (self : StaticDeviceAttributeCondition.t) (v : PyValue) :
  isinstance (StaticDeviceAttributeCondition._static_value self) cls_bool = false ->
  StaticDeviceAttributeCondition._cast_value self v = Ok v.
Proof.
  intros Hb. unfold StaticDeviceAttributeCondition._cast_value,
    StaticDeviceAttributeCondition.cast_attempt.
  rewrite Hb, !isinstance_metaclass. destruct v; reflexivity.
Qed.

(** Against a boolean static value the words of the list cast to true,
    whatever their case, and the cast cannot fail. *)
Lemma cast_value_bool_words `{FloatText}
    (self : StaticDeviceAttributeCondition.t) (s : string) :
  isinstance (StaticDeviceAttributeCondition._static_value self) cls_bool = true ->
  StaticDeviceAttributeCondition._cast_value self (VStr s)
  = Ok (VBool (str_in (py_lower s)
                 StaticDeviceAttributeCondition.truthy_words)).
Proof.
  intros Hb. unfold StaticDeviceAttributeCondition._cast_value,
    StaticDeviceAttributeCondition.cast_attempt.
  now rewrite Hb.
Qed.

(** C4: with the static value [5] and the event value ["5"],
    the stored device value is still the string, and [=] is false. *)
Theorem C4_int_static_value_is_not_cast `{FloatText} :
  let c := StaticDeviceAttributeCondition.__init__ 42 "level" "=" (VInt 5) in
  exists c',
    StaticDeviceAttributeCondition.on_device_event c 42 "level" (VStr "5")
    = Ok c'
    /\ StaticDeviceAttributeCondition._device_value c' = VStr "5"
    /\ StaticDeviceAttributeCondition.evaluate c' = Ok false.
Proof.
  cbn zeta. eexists. split; [reflexivity|]. split; reflexivity.
Qed.

(** *** Unknown operators *)

Lemma operator_unknown_inv (op : string) :
  operator_known op = false ->
  String.eqb op "=" = false /\ String.eqb op "==" = false
  /\ String.eqb op "!=" = false /\ String.eqb op "<>" = false
  /\ String.eqb op ">" = false /\ String.eqb op ">=" = false
  /\ String.eqb op "<" = false /\ String.eqb op "<=" = false.
Proof.
  unfold operator_known. cbn [str_in]. intros Hop.
  repeat (apply orb_false_elim in Hop; destruct Hop as [? Hop]).
  repeat split; assumption.
Qed.

(** C7: an operator outside the eight known strings makes [evaluate] raise
    [ValueError], in both comparison variants and in every state. *)
Theorem C7_unknown_operator_raises (op : string) :
  operator_known op = false ->
  (forall c : DynamicDeviceAttributeCondition.t,
      DynamicDeviceAttributeCondition._operator c = op ->
      DynamicDeviceAttributeCondition.evaluate c = Raise ValueError)
  /\ (forall c : StaticDeviceAttributeCondition.t,
        StaticDeviceAttributeCondition._operator c = op ->
        StaticDeviceAttributeCondition.evaluate c = Raise ValueError).
Proof.
  intros Hop. apply operator_unknown_inv in Hop.
  destruct Hop as (E1 & E2 & E3 & E4 & E5 & E6 & E7 & E8).
  split; intros c Hc.
  - unfold DynamicDeviceAttributeCondition.evaluate.
    rewrite Hc, E1, E2, E3, E4, E5, E6, E7, E8. reflexivity.
  - unfold StaticDeviceAttributeCondition.evaluate.
    rewrite Hc, E1, E2, E3, E4, E5, E6, E7, E8. reflexivity.
Qed.

Lemma C7_unknown_operator_witness :
  operator_known "~=" = false
  /\ DynamicDeviceAttributeCondition.evaluate
       (DynamicDeviceAttributeCondition.__init__ (1, "level") "~=" (2, "level"))
     = Raise ValueError
  /\ StaticDeviceAttributeCondition.evaluate
       (StaticDeviceAttributeCondition.__init__ 1 "level" "~=" (VInt 3))
     = Raise ValueError.
Proof.
  split; [reflexivity|].
  split.
  - apply (proj1 (C7_unknown_operator_raises "~=" eq_refl)). reflexivity.
  - apply (proj2 (C7_unknown_operator_raises "~=" eq_refl)). reflexivity.
Defined.

(** ** The webhook handler *)

Lemma int_of_str_raises_ValueError (s : string) (e : exc) :
  int_of_str s = Raise e -> e = ValueError.
Proof.
  unfold int_of_str.
  destruct (match skip_spaces (list_ascii_of_string s) with
            | [] => (false, skip_spaces (list_ascii_of_string s))
            | a :: cs' =>
                if Ascii.eqb a "-"%char then (true, cs')
                else if Ascii.eqb a "+"%char then (false, cs')
                else (false, skip_spaces (list_ascii_of_string s))
            end) as [negative cs].
  destruct (digit_run AtStart 0 0 cs) as [[[z count] rest]|];
    [|intros [= <-]; reflexivity].
  destruct (skip_spaces rest); [|intros [= <-]; reflexivity].
  destruct (max_str_digits <? count)%nat;
    [intros [= <-]; reflexivity | discriminate].
Qed.

(** C9, as the code has it: when the [deviceId] string is an integer literal,
    the handler appends (id, name, value) to the queue, leaves the index alone
    and answers success; for every other [deviceId] string [int] raises
    [ValueError], and so does the handler: it returns no state and no answer,
    so nothing is queued. *)
Theorem C9_webhook_enqueues_when_id_parses
    (self : HubitatPlugin) (event : HubitatDeviceEvent) :
  (forall z,
      int_of_str (device_id event) = Ok z ->
      exists self',
        _on_device_event self event = Ok (self', [("result", "success")])
        /\ _event_q self' = _event_q self ++ [(z, attribute event, value event)]
        /\ _conditions_for_device self' = _conditions_for_device self)
  /\ (forall e,
        int_of_str (device_id event) = Raise e ->
        e = ValueError /\ _on_device_event self event = Raise ValueError).
Proof.
  split.
  - intros z Hid. unfold _on_device_event. rewrite Hid. cbn.
    eexists. split; [reflexivity|]. split; reflexivity.
  - intros e Hid. pose proof (int_of_str_raises_ValueError _ _ Hid) as ->.
    split; [reflexivity|]. unfold _on_device_event. now rewrite Hid.
Qed.

Lemma C9_webhook_witness :
  int_of_str "42" = Ok 42
  /\ (exists self',
         _on_device_event __init__
           {| device_id := "42"; attribute := "switch"; value := VStr "on" |}
         = Ok (self', [("result", "success")])
         /\ _event_q self' = [(42, "switch", VStr "on")]
         /\ _conditions_for_device self' = [])
  /\ int_of_str " 4 2" = Raise ValueError
  /\ _on_device_event __init__
       {| device_id := " 4 2"; attribute := "switch"; value := VStr "on" |}
     = Raise ValueError.
Proof.
  split; [reflexivity|]. split.
  - exact (proj1 (C9_webhook_enqueues_when_id_parses __init__
                    {| device_id := "42"; attribute := "switch";
                       value := VStr "on" |})
             42 eq_refl).
  - split; [reflexivity|].
    exact (proj2 (proj2 (C9_webhook_enqueues_when_id_parses __init__
                           {| device_id := " 4 2"; attribute := "switch";
                              value := VStr "on" |})
                    ValueError eq_refl)).
Defined.

(** C9, as stated, fails: a body whose [deviceId] is not an integer literal
    makes the handler raise instead of answering success. *)
Lemma C9_non_numeric_id_counterexample :
  _on_device_event __init__
    {| device_id := "abc"; attribute := "switch"; value := VStr "on" |}
  = Raise ValueError.
Proof. reflexivity. Qed.

(** ** Facts about dictionaries *)

Section DictFacts.

Context {V : Type}.
Implicit Types (d : dict V) (k : Z) (v : V).

Lemma dict_get_None_keys k d :
  dict_get k d = None <-> ~ In k (dict_keys d).
Proof.
  induction d as [|[k' v'] d IH]; cbn.
  - tauto.
  - destruct (Z.eqb_spec k' k).
    + split; [discriminate | intros Hn; exfalso; apply Hn; now left].
    + rewrite IH. tauto.
Qed.

Lemma dict_contains_keys k d :
  dict_contains k d = true <-> In k (dict_keys d).
Proof.
  unfold dict_contains. destruct (dict_get k d) eqn:E.
  - split; [intros _ | reflexivity].
    destruct (in_dec Z.eq_dec k (dict_keys d)) as [Hin|Hn]; [exact Hin|].
    apply dict_get_None_keys in Hn. congruence.
  - apply dict_get_None_keys in E. split; [discriminate | tauto].
Qed.

Lemma dict_contains_false_keys k d :
  dict_contains k d = false <-> ~ In k (dict_keys d).
Proof.
  rewrite <- dict_contains_keys. destruct (dict_contains k d); split;
    congruence.
Qed.

Lemma dict_get_In k v d : dict_get k d = Some v -> In (k, v) d.
Proof.
  induction d as [|[k' v'] d IH]; cbn; [discriminate|].
  destruct (Z.eqb_spec k' k).
  - intros [= ->]. subst. now left.
  - intros Hg. right. auto.
Qed.

Lemma dict_get_app k d1 d2 :
  dict_get k (d1 ++ d2)
  = match dict_get k d1 with
    | Some v => Some v
    | None => dict_get k d2
    end.
Proof.
  induction d1 as [|[k' v'] d1 IH]; cbn; [reflexivity|].
  destruct (k' =? k); [reflexivity | exact IH].
Qed.

Lemma dict_get_setitem_same k v d :
  dict_get k (dict_setitem k v d) = Some v.
Proof.
  induction d as [|[k' v'] d IH]; cbn.
  - now rewrite Z.eqb_refl.
  - destruct (Z.eqb_spec k' k) as [->|Hne]; cbn.
    + now rewrite Z.eqb_refl.
    + destruct (Z.eqb_spec k' k); [contradiction | exact IH].
Qed.

Lemma dict_get_setitem_other k k' v d :
  k <> k' -> dict_get k' (dict_setitem k v d) = dict_get k' d.
Proof.
  intros Hne. induction d as [|[k0 v0] d IH]; cbn.
  - destruct (Z.eqb_spec k k'); [contradiction | reflexivity].
  - destruct (Z.eqb_spec k0 k) as [->|Hk]; cbn.
    + destruct (Z.eqb_spec k k'); [contradiction | reflexivity].
    + now rewrite IH.
Qed.

Lemma dict_setitem_absent k v d :
  dict_get k d = None -> dict_setitem k v d = d ++ [(k, v)].
Proof.
  induction d as [|[k' v'] d IH]; cbn; [reflexivity|].
  destruct (k' =? k); [discriminate|]. intros Hg. now rewrite IH.
Qed.

Lemma dict_remove_absent k d :
  dict_get k d = None -> dict_remove k d = d.
Proof.
  induction d as [|[k' v'] d IH]; cbn; [reflexivity|].
  destruct (k' =? k); [discriminate|]. intros Hg. now rewrite IH.
Qed.

Lemma dict_remove_setitem k v d :
  dict_remove k (dict_setitem k v d) = dict_remove k d.
Proof.
  induction d as [|[k' v'] d IH]; cbn.
  - now rewrite Z.eqb_refl.
  - destruct (Z.eqb_spec k' k) as [->|Hne]; cbn.
    + now rewrite Z.eqb_refl.
    + destruct (Z.eqb_spec k' k); [contradiction | now rewrite IH].
Qed.

Lemma dict_remove_app_last k v d :
  dict_get k d = None -> dict_remove k (d ++ [(k, v)]) = d.
Proof.
  intros Hg. rewrite <- (dict_setitem_absent k v d Hg).
  rewrite dict_remove_setitem. now apply dict_remove_absent.
Qed.

Lemma dict_get_remove_other k k' d :
  k <> k' -> dict_get k' (dict_remove k d) = dict_get k' d.
Proof.
  intros Hne. induction d as [|[k0 v0] d IH]; cbn; [reflexivity|].
  destruct (Z.eqb_spec k0 k) as [->|Hk]; cbn.
  - destruct (Z.eqb_spec k k'); [contradiction | reflexivity].
  - now rewrite IH.
Qed.

Lemma dict_keys_remove_incl k d :
  incl (dict_keys (dict_remove k d)) (dict_keys d).
Proof.
  induction d as [|[k' v'] d IH]; cbn; [apply incl_refl|].
  destruct (k' =? k); cbn.
  - apply incl_tl, incl_refl.
  - intros x [<-|Hx]; [now left | right; now apply IH].
Qed.

Lemma dict_keys_remove_NoDup k d :
  NoDup (dict_keys d) -> NoDup (dict_keys (dict_remove k d)).
Proof.
  induction d as [|[k' v'] d IH]; cbn; [trivial|].
  intros Hnd. inversion Hnd as [|? ? Hni Hnd']; subst.
  destruct (k' =? k); cbn; [assumption|].
  constructor; [|auto].
  intros Hin. apply Hni. now apply (dict_keys_remove_incl k d).
Qed.

Lemma dict_get_remove_same k d :
  NoDup (dict_keys d) -> dict_get k (dict_remove k d) = None.
Proof.
  induction d as [|[k' v'] d IH]; cbn; [trivial|].
  intros Hnd. inversion Hnd as [|? ? Hni Hnd']; subst.
  destruct (Z.eqb_spec k' k) as [->|Hne]; cbn.
  - now apply dict_get_None_keys.
  - destruct (Z.eqb_spec k' k); [contradiction | auto].
Qed.

Lemma dict_keys_setitem k v d :
  dict_keys (dict_setitem k v d)
  = if dict_contains k d then dict_keys d else dict_keys d ++ [k].
Proof.
  unfold dict_contains, dict_keys.
  induction d as [|[k' v'] d IH]; cbn; [reflexivity|].
  destruct (k' =? k); cbn; [reflexivity|].
  rewrite IH. now destruct (dict_get k d).
Qed.

Lemma dict_keys_setitem_NoDup k v d :
  NoDup (dict_keys d) -> NoDup (dict_keys (dict_setitem k v d)).
Proof.
  intros Hnd. rewrite dict_keys_setitem.
  destruct (dict_contains k d) eqn:E; [assumption|].
  apply dict_contains_false_keys in E.
  apply NoDup_rev in Hnd. rewrite <- (rev_involutive (_ ++ _)).
  apply NoDup_rev. rewrite rev_app_distr. cbn.
  constructor; [|assumption]. now rewrite <- in_rev.
Qed.

Lemma Forall_dict_setitem (P : Z * V -> Prop) k v d :
  Forall P d -> P (k, v) -> Forall P (dict_setitem k v d).
Proof.
  intros Hd Hkv. induction d as [|[k' v'] d IH]; cbn.
  - now constructor.
  - inversion Hd; subst. destruct (Z.eqb_spec k' k) as [->|Hne].
    + now constructor.
    + constructor; auto.
Qed.

Lemma Forall_dict_remove (P : Z * V -> Prop) k d :
  Forall P d -> Forall P (dict_remove k d).
Proof.
  intros Hd. induction d as [|[k' v'] d IH]; cbn; [constructor|].
  inversion Hd; subst. destruct (k' =? k); [assumption|].
  constructor; auto.
Qed.

Lemma dict_nonempty_has_key d :
  d <> [] -> exists k, dict_contains k d = true.
Proof.
  destruct d as [|[k v] d]; [congruence|]. intros _. exists k.
  unfold dict_contains. cbn. now rewrite Z.eqb_refl.
Qed.

Lemma dict_contains_setitem k k' v d :
  dict_contains k' (dict_setitem k v d) = (k =? k') || dict_contains k' d.
Proof.
  unfold dict_contains. destruct (Z.eqb_spec k k') as [->|Hne]; cbn.
  - now rewrite dict_get_setitem_same.
  - now rewrite dict_get_setitem_other.
Qed.

Lemma dict_contains_remove k k' d :
  NoDup (dict_keys d) ->
  dict_contains k' (dict_remove k d) = negb (k =? k') && dict_contains k' d.
Proof.
  intros Hnd. unfold dict_contains.
  destruct (Z.eqb_spec k k') as [->|Hne]; cbn.
  - now rewrite dict_get_remove_same.
  - now rewrite dict_get_remove_other.
Qed.

Lemma for_each_total {A S : Type} (body : S -> A -> Result S)
    (f : S -> A -> S) (l : list A) (s : S) :
  (forall s a, body s a = Ok (f s a)) ->
  for_each body l s = Ok (fold_left f l s).
Proof.
  intros Hb. revert s. induction l as [|a l IH]; intros s; cbn.
  - reflexivity.
  - rewrite Hb. cbn. apply IH.
Qed.

End DictFacts.

(** ** The condition index *)

Section IndexFacts.

Context {C : Type} `{HubitatCondition C}.
Variable instance_id : loc -> Z.


(** *** Closed forms of the two loop bodies *)

Lemma register_device_eq (c : loc) (idx : index) (d : Z) :
  register_device instance_id c idx d = Ok (insert_under instance_id c idx d).
Proof.
  unfold register_device, insert_under, dict_getitem, dict_contains.
  unfold index, dict in *.
  destruct (dict_get d idx) as [bucket|] eqn:Hd; cbn [negb].
  - rewrite Hd. cbn [bind].
    now destruct (dict_get (instance_id c) bucket).
  - rewrite dict_get_setitem_same. cbn.
    rewrite !(dict_setitem_absent _ _ _ Hd).
    f_equal.
    revert Hd. induction idx as [|[k v] idx IH]; cbn; intros Hd.
    + now rewrite Z.eqb_refl.
    + destruct (k =? d); [discriminate | now rewrite IH].
Qed.

Lemma unregister_device_eq (c : loc) (idx : index) (d : Z) :
  unregister_device instance_id c idx d
  = Ok (remove_under instance_id c idx d).
Proof.
  unfold unregister_device, remove_under, dict_getitem, dict_delitem,
    dict_contains.
  unfold index, dict in *.
  destruct (dict_get d idx) as [bucket|] eqn:Hd; [|reflexivity].
  cbn [bind]. destruct (dict_get (instance_id c) bucket) eqn:Hi;
    [|reflexivity].
  cbn [bind]. rewrite dict_get_setitem_same. cbn [bind].
  destruct (dict_remove (instance_id c) bucket) as [|e bucket'] eqn:Hr.
  - cbn [List.length Nat.eqb]. now rewrite dict_remove_setitem.
  - reflexivity.
Qed.

Lemma register_condition_eq (h : heap C) (self : HubitatPlugin) (c : loc) :
  register_condition instance_id h self c
  = Ok (with_index self
          (fold_left (insert_under instance_id c) (get_device_ids (h c))
             (_conditions_for_device self))).
Proof.
  unfold register_condition.
  rewrite (for_each_total _ (insert_under instance_id c)).
  - reflexivity.
  - intros. apply register_device_eq.
Qed.

Lemma unregister_condition_eq (h : heap C) (self : HubitatPlugin) (c : loc) :
  unregister_condition instance_id h self c
  = Ok (with_index self
          (fold_left (remove_under instance_id c) (get_device_ids (h c))
             (_conditions_for_device self))).
Proof.
  unfold unregister_condition.
  rewrite (for_each_total _ (remove_under instance_id c)).
  - reflexivity.
  - intros. apply unregister_device_eq.
Qed.

(** *** Well-formedness is kept *)

Lemma bucket_of_index (P : Z * dict loc -> Prop) (idx : index) (d : Z)
    (bucket : dict loc) :
  Forall P idx -> dict_get d idx = Some bucket -> P (d, bucket).
Proof.
  intros HP Hd. apply dict_get_In in Hd.
  now apply (proj1 (Forall_forall P idx) HP).
Qed.

Lemma insert_under_Forall (P : Z * dict loc -> Prop) (c : loc) (idx : index)
    (d : Z) :
  Forall P idx ->
  P (d, [(instance_id c, c)]) ->
  (forall bucket, P (d, bucket) ->
                  P (d, dict_setitem (instance_id c) c bucket)) ->
  Forall P (insert_under instance_id c idx d).
Proof.
  intros HP Hnew Hext. unfold insert_under.
  destruct (dict_get d idx) as [bucket|] eqn:Hd.
  - destruct (dict_contains (instance_id c) bucket); [assumption|].
    apply Forall_dict_setitem; [assumption|].
    apply Hext. now apply (bucket_of_index P idx).
  - now apply Forall_dict_setitem.
Qed.

Lemma remove_under_Forall (P : Z * dict loc -> Prop) (c : loc) (idx : index)
    (d : Z) :
  Forall P idx ->
  (forall bucket, P (d, bucket) ->
                  dict_remove (instance_id c) bucket <> [] ->
                  P (d, dict_remove (instance_id c) bucket)) ->
  Forall P (remove_under instance_id c idx d).
Proof.
  intros HP Hrem. unfold remove_under.
  destruct (dict_get d idx) as [bucket|] eqn:Hd; [|assumption].
  destruct (dict_contains (instance_id c) bucket); [|assumption].
  destruct (dict_remove (instance_id c) bucket) as [|e bucket'] eqn:Hr.
  - now apply Forall_dict_remove.
  - apply Forall_dict_setitem; [assumption|].
    rewrite <- Hr. apply Hrem; [now apply (bucket_of_index P idx)|].
    now rewrite Hr.
Qed.

Lemma insert_under_nodup (c : loc) (idx : index) (d : Z) :
  nodup_keys idx -> nodup_keys (insert_under instance_id c idx d).
Proof.
  intros [Hk Hb]. split.
  - unfold insert_under. destruct (dict_get d idx) as [bucket|].
    + destruct (dict_contains (instance_id c) bucket); [assumption|].
      now apply dict_keys_setitem_NoDup.
    + now apply dict_keys_setitem_NoDup.
  - apply insert_under_Forall; [assumption| |]; cbn.
    + repeat constructor. intros [].
    + intros bucket. apply dict_keys_setitem_NoDup.
Qed.

Lemma remove_under_nodup (c : loc) (idx : index) (d : Z) :
  nodup_keys idx -> nodup_keys (remove_under instance_id c idx d).
Proof.
  intros [Hk Hb]. split.
  - unfold remove_under. destruct (dict_get d idx) as [bucket|]; [|assumption].
    destruct (dict_contains (instance_id c) bucket); [|assumption].
    destruct (dict_remove (instance_id c) bucket).
    + now apply dict_keys_remove_NoDup.
    + now apply dict_keys_setitem_NoDup.
  - apply remove_under_Forall; [assumption|]; cbn.
    intros bucket Hnd _. now apply dict_keys_remove_NoDup.
Qed.

Lemma insert_under_no_empty (c : loc) (idx : index) (d : Z) :
  no_empty_bucket idx -> no_empty_bucket (insert_under instance_id c idx d).
Proof.
  intros Hne. apply insert_under_Forall; [assumption| |]; cbn.
  - discriminate.
  - intros [|[k v] bucket] _; cbn; [discriminate|].
    destruct (k =? instance_id c); discriminate.
Qed.

Lemma remove_under_no_empty (c : loc) (idx : index) (d : Z) :
  no_empty_bucket idx -> no_empty_bucket (remove_under instance_id c idx d).
Proof.
  intros Hne. apply remove_under_Forall; [assumption|]; cbn. auto.
Qed.

Lemma insert_under_keyed (c : loc) (idx : index) (d : Z) :
  keyed_by_instance_id instance_id idx ->
  keyed_by_instance_id instance_id (insert_under instance_id c idx d).
Proof.
  intros Hk. apply insert_under_Forall; [assumption| |]; cbn.
  - now repeat constructor.
  - intros bucket Hb. now apply Forall_dict_setitem.
Qed.

Lemma remove_under_keyed (c : loc) (idx : index) (d : Z) :
  keyed_by_instance_id instance_id idx ->
  keyed_by_instance_id instance_id (remove_under instance_id c idx d).
Proof.
  intros Hk. apply remove_under_Forall; [assumption|]; cbn.
  intros bucket Hb _. now apply Forall_dict_remove.
Qed.

Lemma fold_insert_ok (c : loc) (ids : list Z) (idx : index) :
  index_ok instance_id idx ->
  index_ok instance_id (fold_left (insert_under instance_id c) ids idx).
Proof.
  revert idx. induction ids as [|d ids IH]; intros idx Hok; cbn.
  - assumption.
  - apply IH. destruct Hok as (H1 & H2 & H3). repeat split.
    + now apply insert_under_nodup.
    + now apply insert_under_nodup.
    + now apply insert_under_no_empty.
    + now apply insert_under_keyed.
Qed.

Lemma fold_remove_ok (c : loc) (ids : list Z) (idx : index) :
  index_ok instance_id idx ->
  index_ok instance_id (fold_left (remove_under instance_id c) ids idx).
Proof.
  revert idx. induction ids as [|d ids IH]; intros idx Hok; cbn.
  - assumption.
  - apply IH. destruct Hok as (H1 & H2 & H3). repeat split.
    + now apply remove_under_nodup.
    + now apply remove_under_nodup.
    + now apply remove_under_no_empty.
    + now apply remove_under_keyed.
Qed.

Lemma reachable_ok (idx : index) :
  reachable instance_id idx -> index_ok instance_id idx.
Proof.
  induction 1 as [|h self self' c _ IH Hreg|h self self' c _ IH Hun].
  - repeat split; constructor.
  - rewrite register_condition_eq in Hreg. injection Hreg as <-. cbn.
    now apply fold_insert_ok.
  - rewrite unregister_condition_eq in Hun. injection Hun as <-. cbn.
    now apply fold_remove_ok.
Qed.

(** *** Which entries the index holds *)

Lemma has_entry_insert_under (c : loc) (idx : index) (d0 d i : Z) :
  has_entry (insert_under instance_id c idx d0) d i
  <-> has_entry idx d i \/ (d = d0 /\ i = instance_id c).
Proof.
  unfold has_entry, insert_under.
  destruct (dict_get d0 idx) as [bucket|] eqn:Hd0.
  - destruct (dict_contains (instance_id c) bucket) eqn:Hc.
    + split; [auto|]. intros [Hh|[-> ->]]; [assumption|].
      now exists bucket.
    + destruct (Z.eq_dec d0 d) as [->|Hne].
      * split.
        -- intros (b & Hb & Hi). rewrite dict_get_setitem_same in Hb.
           injection Hb as <-. rewrite dict_contains_setitem in Hi.
           apply orb_true_iff in Hi. destruct Hi as [Hi|Hi].
           ++ right. apply Z.eqb_eq in Hi. auto.
           ++ left. now exists bucket.
        -- intros Hh. eexists. split; [apply dict_get_setitem_same|].
           rewrite dict_contains_setitem. apply orb_true_iff.
           destruct Hh as [(b & Hb & Hi)|[_ ->]].
           ++ right. congruence.
           ++ left. apply Z.eqb_refl.
      * split.
        -- intros (b & Hb & Hi).
           rewrite dict_get_setitem_other in Hb by assumption.
           left. now exists b.
        -- intros [(b & Hb & Hi)|[-> _]]; [|congruence].
           exists b. now rewrite dict_get_setitem_other.
  - destruct (Z.eq_dec d0 d) as [->|Hne].
    + split.
      * intros (b & Hb & Hi). rewrite dict_get_setitem_same in Hb.
        injection Hb as <-. right. split; [reflexivity|].
        unfold dict_contains in Hi. cbn in Hi.
        destruct (Z.eqb_spec (instance_id c) i); [auto | discriminate].
      * intros [(b & Hb & _)|[_ ->]]; [congruence|].
        eexists. split; [apply dict_get_setitem_same|].
        unfold dict_contains. cbn. now rewrite Z.eqb_refl.
    + split.
      * intros (b & Hb & Hi).
        rewrite dict_get_setitem_other in Hb by assumption.
        left. now exists b.
      * intros [(b & Hb & Hi)|[-> _]]; [|congruence].
        exists b. now rewrite dict_get_setitem_other.
Qed.

Lemma has_entry_fold_insert (c : loc) (ids : list Z) (idx : index) (d i : Z) :
  has_entry (fold_left (insert_under instance_id c) ids idx) d i
  <-> has_entry idx d i \/ (In d ids /\ i = instance_id c).
Proof.
  revert idx. induction ids as [|d0 ids IH]; intros idx; cbn.
  - tauto.
  - rewrite IH, has_entry_insert_under. intuition congruence.
Qed.

Lemma insert_under_noop (c : loc) (idx : index) (d : Z) :
  has_entry idx d (instance_id c) -> insert_under instance_id c idx d = idx.
Proof.
  intros (b & Hb & Hi). unfold insert_under. now rewrite Hb, Hi.
Qed.

Lemma fold_insert_noop (c : loc) (ids : list Z) (idx : index) :
  (forall d, In d ids -> has_entry idx d (instance_id c)) ->
  fold_left (insert_under instance_id c) ids idx = idx.
Proof.
  induction ids as [|d ids IH]; intros Hall; cbn; [reflexivity|].
  rewrite insert_under_noop by (apply Hall; now left).
  apply IH. intros d' Hd'. apply Hall. now right.
Qed.

Lemma register_twice (h : heap C) (self : HubitatPlugin) (c : loc) :
  exists self1,
    register_condition instance_id h self c = Ok self1
    /\ register_condition instance_id h self1 c = Ok self1.
Proof.
  eexists. split; [apply register_condition_eq|].
  rewrite register_condition_eq. cbn. f_equal. unfold with_index. cbn.
  f_equal. apply fold_insert_noop. intros d Hd.
  apply has_entry_fold_insert. auto.
Qed.

Lemma has_entry_remove_under (c : loc) (idx : index) (d0 d i : Z) :
  nodup_keys idx ->
  has_entry (remove_under instance_id c idx d0) d i
  <-> has_entry idx d i /\ ~ (d = d0 /\ i = instance_id c).
Proof.
  intros [Hk Hb]. unfold has_entry, remove_under.
  destruct (dict_get d0 idx) as [bucket|] eqn:Hd0.
  2:{ split.
      - intros (b & Hg & Hi). split; [now exists b|].
        intros [-> _]. congruence.
      - intros [Hh _]. exact Hh. }
  assert (Hnd : NoDup (dict_keys bucket))
    by exact (bucket_of_index (fun e => NoDup (dict_keys (snd e)))
                idx d0 bucket Hb Hd0).
  destruct (dict_contains (instance_id c) bucket) eqn:Hc.
  2:{ split.
      - intros (b & Hg & Hi). split; [now exists b|].
        intros [-> ->]. congruence.
      - intros [Hh _]. exact Hh. }
  assert (Hrem : forall j,
             dict_contains j (dict_remove (instance_id c) bucket)
             = negb (instance_id c =? j) && dict_contains j bucket)
    by (intros j; now apply dict_contains_remove).
  destruct (Z.eq_dec d0 d) as [->|Hne].
  - (* the bucket of [d] itself *)
    assert (Hiff : dict_contains i (dict_remove (instance_id c) bucket) = true
                   <-> (exists b, dict_get d idx = Some b
                                  /\ dict_contains i b = true)
                       /\ ~ (d = d /\ i = instance_id c)).
    { rewrite Hrem, andb_true_iff, negb_true_iff, Z.eqb_neq. split.
      - intros [Hi1 Hi2]. split; [now exists bucket|]. intros [_ ->]. auto.
      - intros [(b & Hg & Hi) Hn]. split; [intros <-; auto | congruence]. }
    rewrite <- Hiff.
    destruct (dict_remove (instance_id c) bucket) as [|e bucket'] eqn:Hr.
    + rewrite dict_get_remove_same by assumption. split.
      * intros (b & Hg & _). discriminate.
      * discriminate.
    + rewrite dict_get_setitem_same. split.
      * intros (b & Hg & Hi). now injection Hg as <-.
      * intros Hi. eexists. split; [reflexivity | exact Hi].
  - (* another device *)
    assert (Hsame : forall idx',
               dict_get d idx' = dict_get d idx ->
               (exists b, dict_get d idx' = Some b /\ dict_contains i b = true)
               <-> (exists b, dict_get d idx = Some b
                              /\ dict_contains i b = true)
                   /\ ~ (d = d0 /\ i = instance_id c)).
    { intros idx' ->. split; [|tauto]. intros Hh. split; [exact Hh|].
      intros [-> _]. congruence. }
    destruct (dict_remove (instance_id c) bucket); apply Hsame.
    + now apply dict_get_remove_other.
    + now apply dict_get_setitem_other.
Qed.

Lemma has_entry_fold_remove (c : loc) (ids : list Z) (idx : index) (d i : Z) :
  nodup_keys idx ->
  has_entry (fold_left (remove_under instance_id c) ids idx) d i
  <-> has_entry idx d i /\ ~ (In d ids /\ i = instance_id c).
Proof.
  revert idx. induction ids as [|d0 ids IH]; intros idx Hnd; cbn.
  - tauto.
  - rewrite IH by now apply remove_under_nodup.
    rewrite has_entry_remove_under by assumption.
    split.
    + intros [[Hh Hn1] Hn2]. split; [exact Hh|].
      intros [[<-|Hin] Hi]; [apply Hn1 | apply Hn2]; auto.
    + intros [Hh Hn]. repeat split; [exact Hh| |].
      * intros [-> Hi]. apply Hn. auto.
      * intros [Hin Hi]. apply Hn. auto.
Qed.

Lemma has_bucket_iff_entry (idx : index) (d : Z) :
  no_empty_bucket idx ->
  dict_contains d idx = true <-> exists i, has_entry idx d i.
Proof.
  intros Hne. unfold has_entry, dict_contains at 1.
  destruct (dict_get d idx) as [bucket|] eqn:Hd.
  - split; [intros _ | reflexivity].
    assert (Hb : bucket <> [])
      by exact (bucket_of_index (fun e => snd e <> []) idx d bucket Hne Hd).
    destruct (dict_nonempty_has_key bucket Hb) as [i Hi].
    exists i, bucket. auto.
  - split; [discriminate|]. intros (i & b & Hg & _). discriminate.
Qed.

(** *** The index and the registered conditions *)

Section Tracking.

Variable ids_of : loc -> list Z.
Hypothesis instance_id_unique :
  forall c1 c2, instance_id c1 = instance_id c2 -> c1 = c2.

Lemma mirrors_register (h : heap C) (self : HubitatPlugin) (c : loc)
    (acc : list loc) :
  get_device_ids (h c) = ids_of c ->
  mirrors instance_id ids_of (_conditions_for_device self) acc ->
  exists self',
    register_condition instance_id h self c = Ok self'
    /\ mirrors instance_id ids_of (_conditions_for_device self')
         (c :: remove Nat.eq_dec c acc).
Proof.
  intros Hids [Hok Hm]. eexists. split; [apply register_condition_eq|].
  cbn. rewrite Hids. split; [now apply fold_insert_ok|].
  intros d i. rewrite has_entry_fold_insert, Hm. split.
  - intros [(c' & Hin & Hi & Hd)|[Hd ->]].
    + exists c'. repeat split; try assumption.
      destruct (Nat.eq_dec c' c) as [->|Hne]; [now left|].
      right. now apply in_in_remove.
    + exists c. repeat split; [now left | assumption].
  - intros (c' & [<-|Hin] & Hi & Hd).
    + right. auto.
    + left. exists c'. apply in_remove in Hin. tauto.
Qed.

Lemma mirrors_unregister (h : heap C) (self : HubitatPlugin) (c : loc)
    (acc : list loc) :
  get_device_ids (h c) = ids_of c ->
  mirrors instance_id ids_of (_conditions_for_device self) acc ->
  exists self',
    unregister_condition instance_id h self c = Ok self'
    /\ mirrors instance_id ids_of (_conditions_for_device self') (remove Nat.eq_dec c acc).
Proof.
  intros Hids [Hok Hm]. eexists. split; [apply unregister_condition_eq|].
  cbn. rewrite Hids. split; [now apply fold_remove_ok|].
  intros d i. rewrite has_entry_fold_remove by apply Hok. rewrite Hm. split.
  - intros [(c' & Hin & Hi & Hd) Hn]. exists c'.
    repeat split; try assumption. apply in_in_remove; [|assumption].
    intros ->. apply Hn. auto.
  - intros (c' & Hin & Hi & Hd). apply in_remove in Hin.
    destruct Hin as [Hin Hne]. split; [now exists c'|].
    intros [_ ->]. apply Hne. now apply instance_id_unique.
Qed.

Lemma mirrors_calls (ks : list (call (C := C))) (self : HubitatPlugin)
    (acc : list loc) :
  stable_device_ids ids_of ks ->
  mirrors instance_id ids_of (_conditions_for_device self) acc ->
  exists self',
    apply_calls instance_id ks self = Ok self'
    /\ mirrors instance_id ids_of (_conditions_for_device self') (fold_left track ks acc).
Proof.
  unfold apply_calls. revert self acc.
  induction ks as [|k ks IH]; intros self acc Hst Hm; cbn.
  - now exists self.
  - inversion Hst as [|? ? Hk Hst']; subst.
    destruct k as [h c|h c]; cbn.
    + destruct (mirrors_register h self c acc Hk Hm) as (s1 & -> & Hm1).
      cbn. now apply IH.
    + destruct (mirrors_unregister h self c acc Hk Hm) as (s1 & -> & Hm1).
      cbn. now apply IH.
Qed.

(** C1: after any sequence of register and unregister calls on the empty
    index, by conditions with unique instance ids that report the same
    device ids at each call, a device id has a bucket iff a currently
    registered condition lists it. *)
Theorem C1_index_tracks_registered (ks : list (call (C := C))) :
  stable_device_ids ids_of ks ->
  exists self,
    apply_calls instance_id ks __init__ = Ok self
    /\ forall d,
        dict_contains d (_conditions_for_device self) = true
        <-> exists c, In c (currently_registered ks) /\ In d (ids_of c).
Proof.
  intros Hst.
  destruct (mirrors_calls ks __init__ [] Hst) as (self & Hrun & Hok & Hm).
  - split; [repeat split; constructor|].
    intros d i. split.
    + intros (b & Hb & _). discriminate.
    + intros (c & [] & _).
  - exists self. split; [exact Hrun|]. intros d.
    rewrite has_bucket_iff_entry by apply Hok. split.
    + intros (i & Hi). apply Hm in Hi. destruct Hi as (c & Hin & _ & Hd).
      now exists c.
    + intros (c & Hin & Hd). exists (instance_id c). apply Hm.
      now exists c.
Qed.

End Tracking.

(** *** Unregistering undoes registering *)

Lemma strip_app (ids : list Z) (i : Z) (idx1 idx2 : index) :
  strip ids i (idx1 ++ idx2) = strip ids i idx1 ++ strip ids i idx2.
Proof. apply flat_map_app. Qed.

Lemma strip_cons (ids : list Z) (i : Z) (e : Z * dict loc) (idx : index) :
  strip ids i (e :: idx) = strip_bucket ids i e ++ strip ids i idx.
Proof. reflexivity. Qed.

Lemma strip_untouched (ids : list Z) (i : Z) (idx : index) :
  Forall (fun e => existsb (Z.eqb (fst e)) ids
                   && dict_contains i (snd e) = false) idx ->
  strip ids i idx = idx.
Proof.
  induction 1 as [|e idx He _ IH]; [reflexivity|].
  rewrite strip_cons, IH. unfold strip_bucket. now rewrite He.
Qed.

Lemma strip_unused (ids : list Z) (i : Z) (idx : index) :
  unused_id i idx -> strip ids i idx = idx.
Proof.
  intros Hu. apply strip_untouched.
  apply (Forall_impl _ (P := fun e => dict_contains i (snd e) = false));
    [|exact Hu].
  intros e ->. apply andb_false_r.
Qed.

Lemma strip_other_devices (d i : Z) (idx : index) :
  ~ In d (dict_keys idx) -> strip [d] i idx = idx.
Proof.
  intros Hn. apply strip_untouched. apply Forall_forall. intros e He.
  cbn. destruct (Z.eqb_spec (fst e) d) as [<-|Hne]; [|reflexivity].
  exfalso. apply Hn. now apply in_map.
Qed.

Lemma remove_under_cons (c : loc) (k d : Z) (b : dict loc) (idx : index) :
  k <> d ->
  remove_under instance_id c ((k, b) :: idx) d
  = (k, b) :: remove_under instance_id c idx d.
Proof.
  intros Hne. unfold remove_under. cbn.
  destruct (Z.eqb_spec k d); [contradiction|].
  destruct (dict_get d idx) as [bucket|]; [|reflexivity].
  destruct (dict_contains (instance_id c) bucket); [|reflexivity].
  now destruct (dict_remove (instance_id c) bucket).
Qed.

Lemma remove_under_strip (c : loc) (idx : index) (d : Z) :
  NoDup (dict_keys idx) ->
  remove_under instance_id c idx d = strip [d] (instance_id c) idx.
Proof.
  induction idx as [|[k b] idx IH]; intros Hnd; [reflexivity|].
  cbn in Hnd. inversion Hnd as [|? ? Hni Hnd']; subst.
  rewrite strip_cons. destruct (Z.eq_dec k d) as [->|Hne].
  - rewrite (strip_other_devices d _ idx Hni).
    unfold remove_under, strip_bucket. cbn. rewrite Z.eqb_refl. cbn.
    destruct (dict_contains (instance_id c) b); [|reflexivity].
    now destruct (dict_remove (instance_id c) b).
  - rewrite remove_under_cons, IH by assumption.
    unfold strip_bucket. cbn.
    destruct (Z.eqb_spec k d); [contradiction | reflexivity].
Qed.

Lemma strip_singleton (ids : list Z) (i : Z) (e : Z * dict loc) :
  strip ids i [e] = strip_bucket ids i e.
Proof. unfold strip. cbn. apply app_nil_r. Qed.

Lemma strip_bucket_clean (ids : list Z) (i : Z) (e : Z * dict loc) :
  dict_contains i (snd e) = false -> strip_bucket ids i e = [e].
Proof. intros Hc. unfold strip_bucket. now rewrite Hc, andb_false_r. Qed.

Lemma strip_strip_bucket (ids : list Z) (d i : Z) (e : Z * dict loc) :
  NoDup (dict_keys (snd e)) ->
  strip ids i (strip_bucket [d] i e) = strip_bucket (d :: ids) i e.
Proof.
  intros Hnd. destruct e as [k b].
  destruct (dict_contains i b) eqn:Hc.
  2:{ rewrite !strip_bucket_clean by exact Hc.
      rewrite strip_singleton. now apply strip_bucket_clean. }
  unfold strip_bucket at 2. cbn [fst snd existsb]. rewrite Hc.
  destruct (Z.eqb_spec k d) as [->|Hne]; cbn [orb andb].
  - unfold strip_bucket at 1. cbn [fst snd existsb].
    rewrite Z.eqb_refl, Hc. cbn [orb andb].
    destruct (dict_remove i b) as [|x b'] eqn:Hr; [reflexivity|].
    rewrite strip_singleton. apply strip_bucket_clean. cbn [snd].
    rewrite <- Hr, dict_contains_remove by assumption.
    now rewrite Z.eqb_refl.
  - unfold strip_bucket at 1. cbn [fst snd existsb].
    destruct (Z.eqb_spec k d); [contradiction|]. cbn [orb andb].
    rewrite strip_singleton. unfold strip_bucket. cbn [fst snd].
    now rewrite Hc.
Qed.

Lemma strip_strip (ids : list Z) (d i : Z) (idx : index) :
  Forall (fun e => NoDup (dict_keys (snd e))) idx ->
  strip ids i (strip [d] i idx) = strip (d :: ids) i idx.
Proof.
  induction 1 as [|e idx He _ IH]; [reflexivity|].
  rewrite !strip_cons, strip_app, IH. f_equal.
  now apply strip_strip_bucket.
Qed.

Lemma strip_nil (i : Z) (idx : index) : strip [] i idx = idx.
Proof.
  apply strip_untouched. apply Forall_forall. intros e _. reflexivity.
Qed.

Lemma fold_remove_strip (c : loc) (ids : list Z) (idx : index) :
  nodup_keys idx ->
  fold_left (remove_under instance_id c) ids idx
  = strip ids (instance_id c) idx.
Proof.
  revert idx. induction ids as [|d ids IH]; intros idx Hnd; cbn.
  - symmetry. apply strip_nil.
  - rewrite IH by now apply remove_under_nodup.
    rewrite remove_under_strip by apply Hnd.
    apply strip_strip, Hnd.
Qed.

Lemma strip_setitem (ids : list Z) (i d : Z) (b b' : dict loc) (idx : index) :
  dict_get d idx = Some b ->
  strip_bucket ids i (d, b') = strip_bucket ids i (d, b) ->
  strip ids i (dict_setitem d b' idx) = strip ids i idx.
Proof.
  intros Hd Hsame. induction idx as [|[k bk] idx IH]; [discriminate|].
  cbn [dict_get dict_setitem] in Hd |- *. destruct (Z.eqb_spec k d) as [->|Hne].
  - injection Hd as ->. now rewrite !strip_cons, Hsame.
  - rewrite !strip_cons, IH by assumption. reflexivity.
Qed.

Lemma strip_insert_under (c : loc) (ids : list Z) (idx : index) (d : Z) :
  no_empty_bucket idx ->
  In d ids ->
  strip ids (instance_id c) (insert_under instance_id c idx d)
  = strip ids (instance_id c) idx.
Proof.
  intros Hne Hin.
  assert (Hex : existsb (Z.eqb d) ids = true).
  { apply existsb_exists. exists d. split; [assumption | apply Z.eqb_refl]. }
  unfold insert_under. destruct (dict_get d idx) as [b|] eqn:Hd.
  - destruct (dict_contains (instance_id c) b) eqn:Hc; [reflexivity|].
    apply (strip_setitem ids _ d b); [assumption|].
    unfold strip_bucket. cbn [fst snd]. rewrite Hex, Hc.
    rewrite dict_contains_setitem, Z.eqb_refl. cbn [orb andb].
    unfold dict_contains in Hc.
    destruct (dict_get (instance_id c) b) eqn:Hg; [discriminate|].
    rewrite (dict_setitem_absent _ _ _ Hg), (dict_remove_app_last _ _ _ Hg).
    assert (Hb : b <> [])
      by exact (bucket_of_index (fun e => snd e <> []) idx d b Hne Hd).
    destruct b; [contradiction | reflexivity].
  - rewrite (dict_setitem_absent _ _ _ Hd), strip_app. cbn.
    unfold strip_bucket. cbn. rewrite Hex.
    unfold dict_contains. cbn. rewrite Z.eqb_refl. cbn.
    now rewrite !app_nil_r.
Qed.

Lemma strip_fold_insert (c : loc) (ids ids' : list Z) (idx : index) :
  no_empty_bucket idx ->
  incl ids ids' ->
  strip ids' (instance_id c) (fold_left (insert_under instance_id c) ids idx)
  = strip ids' (instance_id c) idx.
Proof.
  revert idx. induction ids as [|d ids IH]; intros idx Hne Hincl;
    cbn [fold_left].
  - reflexivity.
  - rewrite IH.
    + apply strip_insert_under; [assumption|]. apply Hincl. now left.
    + now apply insert_under_no_empty.
    + intros x Hx. apply Hincl. now right.
Qed.

Lemma dict_get_insert_under_other (c : loc) (idx : index) (d0 d : Z) :
  d0 <> d ->
  dict_get d (insert_under instance_id c idx d0) = dict_get d idx.
Proof.
  intros Hne. unfold insert_under. destruct (dict_get d0 idx) as [b|].
  - destruct (dict_contains (instance_id c) b); [reflexivity|].
    now apply dict_get_setitem_other.
  - now apply dict_get_setitem_other.
Qed.

Lemma dict_get_fold_insert_other (c : loc) (ids : list Z) (idx : index)
    (d : Z) :
  ~ In d ids ->
  dict_get d (fold_left (insert_under instance_id c) ids idx)
  = dict_get d idx.
Proof.
  revert idx. induction ids as [|d0 ids IH]; intros idx Hn; cbn.
  - reflexivity.
  - rewrite IH by (intros Hin; apply Hn; now right).
    apply dict_get_insert_under_other. intros ->. apply Hn. now left.
Qed.

Lemma unregister_after_register (h : heap C) (self : HubitatPlugin)
    (c : loc) :
  index_ok instance_id (_conditions_for_device self) ->
  unused_id (instance_id c) (_conditions_for_device self) ->
  exists self1,
    register_condition instance_id h self c = Ok self1
    /\ unregister_condition instance_id h self1 c = Ok self
    /\ forall d, ~ In d (get_device_ids (h c)) ->
                 dict_get d (_conditions_for_device self1)
                 = dict_get d (_conditions_for_device self).
Proof.
  intros Hok Hunused.
  eexists. split; [apply register_condition_eq|]. split.
  - rewrite unregister_condition_eq. cbn.
    rewrite fold_remove_strip.
    + rewrite strip_fold_insert by (apply Hok || apply incl_refl).
      rewrite strip_unused by assumption. now destruct self.
    + apply (fold_insert_ok c (get_device_ids (h c))) in Hok. apply Hok.
  - intros d Hd. cbn. now apply dict_get_fold_insert_other.
Qed.

(** C10: on a reachable index in which the instance id of [c] is unused,
    registering [c] and unregistering it right away gives the index back
    as it was, leaves the buckets of other devices as they were in between,
    and [unregister_condition] returns normally in every state. *)
Theorem C10_unregister_undoes_register (h : heap C) (c : loc) :
  (forall self,
      reachable instance_id (_conditions_for_device self) ->
      unused_id (instance_id c) (_conditions_for_device self) ->
      exists self1,
        register_condition instance_id h self c = Ok self1
        /\ unregister_condition instance_id h self1 c = Ok self
        /\ forall d, ~ In d (get_device_ids (h c)) ->
                     dict_get d (_conditions_for_device self1)
                     = dict_get d (_conditions_for_device self))
  /\ (forall self,
        exists self', unregister_condition instance_id h self c = Ok self').
Proof.
  split.
  - intros self Hreach Hunused.
    apply unregister_after_register; [|assumption].
    now apply reachable_ok.
  - intros self. eexists. apply unregister_condition_eq.
Qed.

End IndexFacts.

(** ** The dispatch loop *)

Section DispatchFacts.

Context {C : Type} `{HubitatCondition C}.

Lemma heap_set_same (h : heap C) (c : loc) (o : C) : heap_set h c o c = o.
Proof. unfold heap_set. now rewrite Nat.eqb_refl. Qed.

Lemma heap_set_other (h : heap C) (c r : loc) (o : C) :
  r <> c -> heap_set h c o r = h r.
Proof.
  intros Hne. unfold heap_set.
  destruct (Nat.eqb_spec r c); [contradiction | reflexivity].
Qed.

(** The loop only touches the conditions it was given. *)
Lemma notify_frame (d : Z) (a : string) (v : PyValue) (todo : list loc) :
  forall (h : heap C) (acc : list loc) h' cs err,
    notify h d a v todo acc = (h', cs, err) ->
    forall r, ~ In r todo -> h' r = h r.
Proof.
  induction todo as [|c todo IH]; intros h acc h' cs err Hn r Hr; cbn in Hn.
  - now injection Hn as <- _ _.
  - destruct (on_device_event (h c) d a v) as [o|e].
    + rewrite (IH _ _ _ _ _ Hn r) by (intros Hin; apply Hr; now right).
      apply heap_set_other. intros ->. apply Hr. now left.
    + now injection Hn as <- _ _.
Qed.

Lemma notify_app (d : Z) (a : string) (v : PyValue) (pre post : list loc) :
  forall (h : heap C) (acc : list loc),
    notify h d a v (pre ++ post) acc
    = match notify h d a v pre acc with
      | (h1, cs, None) => notify h1 d a v post cs
      | (h1, cs, Some e) => (h1, cs, Some e)
      end.
Proof.
  induction pre as [|c pre IH]; intros h acc; cbn; [reflexivity|].
  destruct (on_device_event (h c) d a v) as [o|e]; [apply IH | reflexivity].
Qed.

(** When no handler raises, every condition of the list is notified, in
    order, and the list collected is the list given. *)
Lemma notify_all (d : Z) (a : string) (v : PyValue) (todo : list loc) :
  (forall (o : C), exists o', on_device_event o d a v = Ok o') ->
  forall (h : heap C) (acc : list loc),
  exists h',
    notify h d a v todo acc = (h', acc ++ todo, None)
    /\ (NoDup todo ->
        forall r, In r todo -> on_device_event (h r) d a v = Ok (h' r)).
Proof.
  intros Htot. induction todo as [|c todo IH]; intros h acc; cbn.
  - exists h. rewrite app_nil_r. split; [reflexivity|]. intros _ r [].
  - destruct (Htot (h c)) as [o Ho]. rewrite Ho.
    destruct (IH (heap_set h c o) (acc ++ [c])) as (h' & Hn & Hh).
    exists h'. rewrite Hn, <- app_assoc. split; [reflexivity|].
    intros Hnd r Hr. inversion Hnd as [|? ? Hni Hnd']; subst.
    destruct Hr as [<-|Hr].
    + rewrite (notify_frame _ _ _ _ _ _ _ _ _ Hn c Hni).
      now rewrite heap_set_same.
    + rewrite <- (Hh Hnd' r Hr). rewrite heap_set_other; [reflexivity|].
      intros ->. contradiction.
Qed.

(** What a completed pass collected is what it was given. *)
Lemma notify_collects (d : Z) (a : string) (v : PyValue) (todo : list loc) :
  forall (h : heap C) (acc : list loc) h' cs,
    notify h d a v todo acc = (h', cs, None) -> cs = acc ++ todo.
Proof.
  induction todo as [|c todo IH]; intros h acc h' cs Hn; cbn in Hn.
  - injection Hn as _ <-. now rewrite app_nil_r.
  - destruct (on_device_event (h c) d a v) as [o|e]; [|discriminate].
    apply IH in Hn. now rewrite Hn, <- app_assoc.
Qed.

(** A completed pass ran the handler of each condition it was given: with
    no condition listed twice, the final state of each is the result of one
    call of its handler on its initial state. *)
Lemma notify_effect (d : Z) (a : string) (v : PyValue) (todo : list loc) :
  forall (h : heap C) (acc : list loc) h' cs,
    notify h d a v todo acc = (h', cs, None) ->
    NoDup todo ->
    forall r, In r todo -> on_device_event (h r) d a v = Ok (h' r).
Proof.
  induction todo as [|c todo IH]; intros h acc h' cs Hn Hnd r Hr; cbn in Hn.
  - destruct Hr.
  - inversion Hnd as [|? ? Hni Hnd']; subst.
    destruct (on_device_event (h c) d a v) as [o|e] eqn:Ho; [|discriminate].
    destruct Hr as [<-|Hr].
    + rewrite (notify_frame _ _ _ _ _ _ _ _ _ Hn c Hni).
      now rewrite heap_set_same.
    + rewrite <- (IH _ _ _ _ Hn Hnd' r Hr).
      rewrite heap_set_other; [reflexivity|]. intros ->. contradiction.
Qed.

End DispatchFacts.

Section RegistrationAndDispatch.

Context {C : Type} `{HubitatCondition C}.
Variable instance_id : loc -> Z.

Lemma keyed_values_NoDup (bucket : dict loc) :
  NoDup (dict_keys bucket) ->
  Forall (fun ir => fst ir = instance_id (snd ir)) bucket ->
  NoDup (dict_values bucket).
Proof.
  intros Hnd Hkey. apply (NoDup_map_inv instance_id).
  unfold dict_values. rewrite map_map.
  replace (map (fun x => instance_id (snd x)) bucket) with (dict_keys bucket);
    [assumption|].
  unfold dict_keys. apply map_ext_in. intros e He.
  now apply (proj1 (Forall_forall _ bucket) Hkey).
Qed.

Lemma keyed_value_found (bucket : dict loc) (c : loc) :
  (forall c1 c2, instance_id c1 = instance_id c2 -> c1 = c2) ->
  Forall (fun ir => fst ir = instance_id (snd ir)) bucket ->
  dict_contains (instance_id c) bucket = true ->
  In c (dict_values bucket).
Proof.
  intros Huniq Hkey Hc. unfold dict_contains in Hc.
  destruct (dict_get (instance_id c) bucket) as [r|] eqn:Hg; [|discriminate].
  apply dict_get_In in Hg.
  assert (Hr : instance_id c = instance_id r)
    by exact (proj1 (Forall_forall _ bucket) Hkey _ Hg).
  apply Huniq in Hr. subst r. unfold dict_values.
  now apply (in_map snd) in Hg.
Qed.

(** C6: registering a condition a second time leaves the index as the first
    registration made it, in every state; and on a reachable index, with
    unique instance ids, an event for one of its devices then notifies the
    condition exactly once: it is collected once, and its state after the
    turn is the result of one call of its handler on its state before. *)
Theorem C6_register_idempotent (h : heap C) (self : HubitatPlugin) (c : loc) :
  (exists self1,
      register_condition instance_id h self c = Ok self1
      /\ register_condition instance_id h self1 c = Ok self1)
  /\ ((forall c1 c2, instance_id c1 = instance_id c2 -> c1 = c2) ->
      reachable instance_id (_conditions_for_device self) ->
      forall self1 self2,
        register_condition instance_id h self c = Ok self1 ->
        register_condition instance_id h self1 c = Ok self2 ->
        forall d a v h' cs,
          In d (get_device_ids (h c)) ->
          notify h d a v (bucket_values (_conditions_for_device self2) d) []
          = (h', cs, None) ->
          count_occ Nat.eq_dec cs c = 1%nat
          /\ on_device_event (h c) d a v = Ok (h' c)).
Proof.
  split; [apply register_twice|].
  intros Huniq Hreach self1 self2 Hr1 Hr2 d a v h' cs Hd Hn.
  destruct (register_twice instance_id h self c) as (s1 & Hs1 & Hs2).
  assert (self1 = s1) by congruence. subst s1.
  assert (self2 = self1) by congruence. subst self2.
  rewrite register_condition_eq in Hr1. injection Hr1 as <-.
  cbn [_conditions_for_device with_index] in Hn.
  apply reachable_ok in Hreach.
  apply (fold_insert_ok instance_id c (get_device_ids (h c))) in Hreach.
  destruct Hreach as ((_ & Hnd) & _ & Hkey).
  assert (Hhas : has_entry
                   (fold_left (insert_under instance_id c)
                      (get_device_ids (h c)) (_conditions_for_device self))
                   d (instance_id c))
    by (apply has_entry_fold_insert; auto).
  destruct Hhas as (bucket & Hb & Hc).
  unfold bucket_values in Hn. rewrite Hb in Hn.
  assert (Hvalues : NoDup (dict_values bucket)).
  { apply keyed_values_NoDup.
    - exact (bucket_of_index (fun e => NoDup (dict_keys (snd e))) _ d bucket
               Hnd Hb).
    - exact (bucket_of_index
               (fun e => Forall (fun ir => fst ir = instance_id (snd ir))
                           (snd e)) _ d bucket Hkey Hb). }
  assert (Hin : In c (dict_values bucket)).
  { apply keyed_value_found; try assumption.
    exact (bucket_of_index
             (fun e => Forall (fun ir => fst ir = instance_id (snd ir))
                         (snd e)) _ d bucket Hkey Hb). }
  split.
  - apply notify_collects in Hn. cbn in Hn. subst cs.
    now apply NoDup_count_occ'.
  - exact (notify_effect _ _ _ _ _ _ _ _ Hn Hvalues c Hin).
Qed.

(** C5, as the code has it: the loop has no handler of its own.  When the
    conditions [pre] of the bucket were notified and the next one raises,
    the turn is aborted with that exception: no condition after it is
    notified, nothing is yielded, and the generator is finished. *)
Theorem C5_fault_aborts_dispatch (h h1 : heap C) (self : HubitatPlugin)
    (d : Z) (a : string) (v : PyValue) (q : list (Z * string * PyValue))
    (pre post : list loc) (c : loc) (e : exc) :
  _event_q self = (d, a, v) :: q ->
  bucket_values (_conditions_for_device self) d = pre ++ c :: post ->
  notify h d a v pre [] = (h1, pre, None) ->
  on_device_event (h1 c) d a v = Raise e ->
  run_turn h self = Abort e pre h1 (with_queue self q)
  /\ (forall r, ~ In r pre -> h1 r = h r)
  /\ forall fuel,
      run_turns (S fuel) h self = ([], h1, with_queue self q, Finished e).
Proof.
  intros Hq Hb Hpre Hc.
  assert (Hturn : run_turn h self = Abort e pre h1 (with_queue self q)).
  { unfold run_turn. rewrite Hq, Hb, notify_app, Hpre. cbn. now rewrite Hc. }
  split; [exact Hturn|]. split.
  - intros r Hr. now apply (notify_frame _ _ _ _ _ _ _ _ _ Hpre).
  - intros fuel. cbn [run_turns]. now rewrite Hturn.
Qed.

End RegistrationAndDispatch.

(** ** Dispatch over the conditions of the repository *)

Section ConcreteDispatch.

Context `{FloatText}.
Variable instance_id : loc -> Z.

Lemma cast_value_returns (self : StaticDeviceAttributeCondition.t)
    (v : PyValue) :
  exists v', StaticDeviceAttributeCondition._cast_value self v = Ok v'.
Proof.
  unfold StaticDeviceAttributeCondition._cast_value,
    StaticDeviceAttributeCondition.cast_attempt.
  destruct (is_None v); [now eexists|].
  destruct (isinstance (StaticDeviceAttributeCondition._static_value self)
              cls_bool).
  - destruct v; now eexists.
  - rewrite !isinstance_metaclass. now eexists.
Qed.

(** None of the three classes raises in [on_device_event]. *)
Lemma Condition_handler_returns (d : Z) (a : string) (v : PyValue)
    (o : Condition) :
  exists o', on_device_event o d a v = Ok o'.
Proof.
  destruct o as [x|[y|z]]; cbn; try now eexists.
  unfold StaticDeviceAttributeCondition.on_device_event.
  destruct (_ && _); [|now eexists].
  destruct (cast_value_returns z v) as [v' ->]. cbn. now eexists.
Qed.

(** C8: a turn of the loop on the event [(d, a, v)] notifies the conditions
    of the bucket of [d], all of them and no other, and yields them as one
    batch iff there is any; with no bucket for [d], also once the only
    condition of [d] was unregistered, the turn yields nothing. *)
Theorem C8_dispatch_notifies_bucket (h : heap Condition)
    (self : HubitatPlugin) (d : Z) (a : string) (v : PyValue)
    (q : list (Z * string * PyValue)) :
  _event_q self = (d, a, v) :: q ->
  let batch := bucket_values (_conditions_for_device self) d in
  (exists h',
      run_turn h self
      = (if (0 <? List.length batch)%nat
         then Yield batch h' (with_queue self q)
         else Skip h' (with_queue self q))
      /\ (forall r, ~ In r batch -> h' r = h r)
      /\ (NoDup batch ->
          forall r, In r batch -> on_device_event (h r) d a v = Ok (h' r)))
  /\ (dict_contains d (_conditions_for_device self) = false -> batch = [])
  /\ (forall c self1 self2,
        register_condition instance_id h __init__ c = Ok self1 ->
        unregister_condition instance_id h self1 c = Ok self2 ->
        run_turn h (with_queue self2 [(d, a, v)])
        = Skip h (with_queue self2 [])).
Proof.
  intros Hq batch. split; [|split].
  - destruct (notify_all d a v batch (Condition_handler_returns d a v) h [])
      as (h' & Hn & Hh).
    exists h'. split; [|split].
    + unfold run_turn. rewrite Hq. fold batch. rewrite Hn. reflexivity.
    + intros r Hr. now apply (notify_frame _ _ _ _ _ _ _ _ _ Hn).
    + exact Hh.
  - intros Hc. unfold batch, bucket_values. unfold dict_contains in Hc.
    now destruct (dict_get d (_conditions_for_device self)).
  - intros c self1 self2 Hr Hu.
    destruct (unregister_after_register instance_id h __init__ c)
      as (s1 & Hs1 & Hs2 & _).
    + repeat split; constructor.
    + constructor.
    + assert (self1 = s1) by congruence. subst s1.
      assert (self2 = __init__) by congruence. subst self2. reflexivity.
Qed.

End ConcreteDispatch.

(** ** The theorems at sample inputs *)

Lemma C1_index_tracks_registered_witness :
  let ks := [Register switch_heap 1%nat; Register switch_heap 2%nat;
             Unregister switch_heap 1%nat] in
  (forall c1 c2, Z.of_nat c1 = Z.of_nat c2 -> c1 = c2)
  /\ stable_device_ids (fun r => [Z.of_nat r]) ks
  /\ exists self,
      apply_calls Z.of_nat ks __init__ = Ok self
      /\ forall d,
          dict_contains d (_conditions_for_device self) = true
          <-> exists c, In c (currently_registered ks) /\ In d [Z.of_nat c].
Proof.
  cbn zeta. split; [exact Nat2Z.inj|]. split; [repeat constructor|].
  apply (C1_index_tracks_registered Z.of_nat (fun r => [Z.of_nat r])
           Nat2Z.inj).
  repeat constructor.
Defined.

Lemma C10_unregister_undoes_register_witness :
  let self := {| _event_q := []; _conditions_for_device := [(2, [(2, 2%nat)])] |} in
  reachable (C := AttributeChangeCondition.t) Z.of_nat (_conditions_for_device self)
  /\ unused_id 1 (_conditions_for_device self)
  /\ exists self1,
      register_condition Z.of_nat switch_heap self 1%nat = Ok self1
      /\ unregister_condition Z.of_nat switch_heap self1 1%nat = Ok self
      /\ forall d, ~ In d [1] ->
                   dict_get d (_conditions_for_device self1)
                   = dict_get d (_conditions_for_device self).
Proof.
  cbn zeta.
  assert (Hreach : reachable (C := AttributeChangeCondition.t) Z.of_nat [(2, [(2, 2%nat)])])
    by exact (reach_register Z.of_nat switch_heap __init__
                {| _event_q := [];
                   _conditions_for_device := [(2, [(2, 2%nat)])] |}
                2%nat (reach_init (C := AttributeChangeCondition.t) Z.of_nat) eq_refl).
  assert (Hunused : unused_id 1 [(2, [(2, 2%nat)])])
    by (repeat constructor).
  split; [exact Hreach|]. split; [exact Hunused|].
  exact (proj1 (C10_unregister_undoes_register Z.of_nat switch_heap 1%nat)
           {| _event_q := []; _conditions_for_device := [(2, [(2, 2%nat)])] |}
           Hreach Hunused).
Defined.

Lemma C6_register_idempotent_witness :
  (forall c1 c2, Z.of_nat c1 = Z.of_nat c2 -> c1 = c2)
  /\ reachable (C := AttributeChangeCondition.t) Z.of_nat (_conditions_for_device __init__)
  /\ exists self1 h' cs,
      register_condition Z.of_nat switch_heap __init__ 1%nat = Ok self1
      /\ register_condition Z.of_nat switch_heap self1 1%nat = Ok self1
      /\ notify switch_heap 1 "switch" (VStr "on")
           (bucket_values (_conditions_for_device self1) 1) []
         = (h', cs, None)
      /\ count_occ Nat.eq_dec cs 1%nat = 1%nat
      /\ on_device_event (switch_heap 1%nat) 1 "switch" (VStr "on")
         = Ok (h' 1%nat).
Proof.
  split; [exact Nat2Z.inj|]. split; [apply reach_init|].
  eexists. eexists. eexists.
  split; [reflexivity|]. split; [reflexivity|]. split; [reflexivity|].
  exact (proj2 (C6_register_idempotent Z.of_nat switch_heap __init__ 1%nat)
           Nat2Z.inj (reach_init (C := AttributeChangeCondition.t) Z.of_nat) _ _ eq_refl eq_refl
           1 "switch" (VStr "on") _ _ (or_introl eq_refl) eq_refl).
Defined.

Lemma C5_fault_aborts_dispatch_witness :
  let self := {| _event_q := [(42, "switch", VStr "on")];
                 _conditions_for_device :=
                   [(42, [(1, 1%nat); (0, 0%nat); (2, 2%nat)])] |} in
  exists h1,
    bucket_values (_conditions_for_device self) 42 = [1%nat] ++ 0%nat :: [2%nat]
    /\ notify faulty_heap 42 "switch" (VStr "on") [1%nat] []
       = (h1, [1%nat], None)
    /\ on_device_event (h1 0%nat) 42 "switch" (VStr "on") = Raise RuntimeError
    /\ run_turn faulty_heap self = Abort RuntimeError [1%nat] h1 (with_queue self [])
    /\ h1 2%nat = faulty_heap 2%nat.
Proof.
  cbn zeta. eexists.
  split; [reflexivity|]. split; [reflexivity|]. split; [reflexivity|].
  pose proof (C5_fault_aborts_dispatch faulty_heap _
                {| _event_q := [(42, "switch", VStr "on")];
                   _conditions_for_device :=
                     [(42, [(1, 1%nat); (0, 0%nat); (2, 2%nat)])] |}
                42 "switch" (VStr "on") [] [1%nat] [2%nat] 0%nat RuntimeError
                eq_refl eq_refl eq_refl eq_refl) as (Hturn & Hframe & _).
  split; [exact Hturn|].
  apply Hframe. intros [Hin|[]]. discriminate.
Defined.

(** C5, as stated, fails: with a faulty condition first in the bucket of
    device 42 and a second condition after it, an event for device 42 makes
    the loop finish with the exception; the second condition is not notified
    and nothing is yielded. *)
Lemma C5_raising_handler_counterexample :
  exists self1 self2,
    register_condition Z.of_nat faulty_heap __init__ 0%nat = Ok self1
    /\ register_condition Z.of_nat faulty_heap self1 1%nat = Ok self2
    /\ bucket_values (_conditions_for_device self2) 42 = [0%nat; 1%nat]
    /\ on_device_event (faulty_heap 0%nat) 42 "switch" (VStr "on")
       = Raise RuntimeError
    /\ let '(batches, h', _, st) :=
         run faulty_heap (with_queue self2 [(42, "switch", VStr "on")]) in
       batches = [] /\ st = Finished RuntimeError
       /\ h' 1%nat = faulty_heap 1%nat.
Proof.
  eexists. eexists.
  split; [reflexivity|]. split; [reflexivity|]. split; [reflexivity|].
  split; [reflexivity|]. cbn. repeat split.
Qed.

Lemma C8_dispatch_notifies_bucket_witness :
  let self := {| _event_q := [(42, "switch", VStr "on")];
                 _conditions_for_device := [(42, [(0, 0%nat); (1, 1%nat)])] |} in
  _event_q self = [(42, "switch", VStr "on")]
  /\ exists h',
      run_turn sample_heap self
      = Yield [0%nat; 1%nat] h' (with_queue self [])
      /\ evaluate (h' 0%nat) = Ok true
      /\ evaluate (h' 1%nat) = Ok true.
Proof.
  cbn zeta. split; [reflexivity|].
  destruct (C8_dispatch_notifies_bucket (H := sample_float_text) Z.of_nat
              sample_heap
              {| _event_q := [(42, "switch", VStr "on")];
                 _conditions_for_device := [(42, [(0, 0%nat); (1, 1%nat)])] |}
              42 "switch" (VStr "on") [] eq_refl)
    as ((h' & Hrun & _ & Hnot) & _).
  exists h'. split; [exact Hrun|].
  assert (Hnd : NoDup [0%nat; 1%nat])
    by (repeat constructor; cbn; intuition discriminate).
  pose proof (Hnot Hnd 0%nat (or_introl eq_refl)) as H0.
  pose proof (Hnot Hnd 1%nat (or_intror (or_introl eq_refl))) as H1.
  cbn in H0, H1. injection H0 as <-. injection H1 as <-.
  split; reflexivity.
Defined.

(** ** Checks of the builtin models *)

Example int_of_str_42 : int_of_str "42" = Ok 42.
Proof. reflexivity. Qed.

Example int_of_str_padded : int_of_str "  -1_000 " = Ok (-1000).
Proof. reflexivity. Qed.

Example int_of_str_abc : int_of_str "abc" = Raise ValueError.
Proof. reflexivity. Qed.

Example int_of_str_bad_underscore : int_of_str "1__0" = Raise ValueError.
Proof. reflexivity. Qed.

Example int_of_str_empty : int_of_str "" = Raise ValueError.
Proof. reflexivity. Qed.

Example str_of_int_neg : str_of_int (-1203) = "-1203".
Proof. reflexivity. Qed.

Example str_of_int_zero : str_of_int 0 = "0".
Proof. reflexivity. Qed.

(** * Further properties of the code *)

(** ** Registration *)

Section RegistrationFacts.

Context {C : Type} `{HubitatCondition C}.
Variable instance_id : loc -> Z.

Lemma remove_under_noop (c : loc) (idx : index) (d : Z) :
  ~ has_entry idx d (instance_id c) ->
  remove_under instance_id c idx d = idx.
Proof.
  intros Hn. unfold remove_under.
  destruct (dict_get d idx) as [bucket|] eqn:Hd; [|reflexivity].
  destruct (dict_contains (instance_id c) bucket) eqn:Hc; [|reflexivity].
  exfalso. apply Hn. now exists bucket.
Qed.

Lemma fold_remove_noop (c : loc) (ids : list Z) (idx : index) :
  (forall d, In d ids -> ~ has_entry idx d (instance_id c)) ->
  fold_left (remove_under instance_id c) ids idx = idx.
Proof.
  induction ids as [|d ids IH]; intros Hall; cbn; [reflexivity|].
  rewrite remove_under_noop by (apply Hall; now left).
  apply IH. intros d' Hd'. apply Hall. now right.
Qed.

Lemma unused_id_no_entry (i : Z) (idx : index) (d : Z) :
  unused_id i idx -> ~ has_entry idx d i.
Proof.
  intros Hu (bucket & Hb & Hc).
  pose proof (bucket_of_index (fun e => dict_contains i (snd e) = false)
                idx d bucket Hu Hb) as Hf.
  cbn in Hf. congruence.
Qed.

(** The index of every reachable state has unique device keys, unique
    instance-id keys in each bucket, no empty bucket, and every entry stored
    under the instance id of its condition. *)
Theorem X_reachable_index_well_formed (idx : index) :
  reachable instance_id idx ->
  NoDup (dict_keys idx)
  /\ (forall d bucket,
        dict_get d idx = Some bucket ->
        NoDup (dict_keys bucket)
        /\ bucket <> []
        /\ forall i c, dict_get i bucket = Some c -> i = instance_id c).
Proof.
  intros Hreach. apply reachable_ok in Hreach.
  destruct Hreach as ((Hk & Hb) & Hne & Hkey). split; [exact Hk|].
  intros d bucket Hd. repeat split.
  - exact (bucket_of_index (fun e => NoDup (dict_keys (snd e))) idx d bucket
             Hb Hd).
  - exact (bucket_of_index (fun e => snd e <> []) idx d bucket Hne Hd).
  - intros i c Hi. apply dict_get_In in Hi.
    pose proof (bucket_of_index
                  (fun e => Forall (fun ir => fst ir = instance_id (snd ir))
                              (snd e)) idx d bucket Hkey Hd) as Hf.
    exact (proj1 (Forall_forall _ bucket) Hf (i, c) Hi).
Qed.

(** [register_condition] always returns; it leaves the queue alone, removes
    no entry, and adds exactly the entries of the condition: its instance id
    under each of its device ids. *)
Theorem X_register_adds_exactly (h : heap C) (self : HubitatPlugin) (c : loc) :
  exists self',
    register_condition instance_id h self c = Ok self'
    /\ _event_q self' = _event_q self
    /\ forall d i,
        has_entry (_conditions_for_device self') d i
        <-> has_entry (_conditions_for_device self) d i
            \/ (In d (get_device_ids (h c)) /\ i = instance_id c).
Proof.
  eexists. split; [apply register_condition_eq|]. split; [reflexivity|].
  intros d i. cbn. apply has_entry_fold_insert.
Qed.

(** On a reachable index, [unregister_condition] removes exactly the entries
    of the condition (its instance id under each of its device ids) and keeps
    every other entry. *)
Theorem X_unregister_removes_exactly (h : heap C) (self : HubitatPlugin)
    (c : loc) :
  reachable instance_id (_conditions_for_device self) ->
  exists self',
    unregister_condition instance_id h self c = Ok self'
    /\ _event_q self' = _event_q self
    /\ forall d i,
        has_entry (_conditions_for_device self') d i
        <-> has_entry (_conditions_for_device self) d i
            /\ ~ (In d (get_device_ids (h c)) /\ i = instance_id c).
Proof.
  intros Hreach. apply reachable_ok in Hreach.
  eexists. split; [apply unregister_condition_eq|]. split; [reflexivity|].
  intros d i. cbn. apply has_entry_fold_remove, Hreach.
Qed.

(** Unregistering a condition whose instance id occurs in no bucket changes
    nothing, in any index. *)
Theorem X_unregister_unknown_is_noop (h : heap C) (self : HubitatPlugin)
    (c : loc) :
  unused_id (instance_id c) (_conditions_for_device self) ->
  unregister_condition instance_id h self c = Ok self.
Proof.
  intros Hu. rewrite unregister_condition_eq.
  rewrite fold_remove_noop.
  - now destruct self.
  - intros d _. now apply unused_id_no_entry.
Qed.

(** On a reachable index, unregistering twice is unregistering once. *)
Theorem X_unregister_idempotent (h : heap C) (self : HubitatPlugin) (c : loc) :
  reachable instance_id (_conditions_for_device self) ->
  exists self1,
    unregister_condition instance_id h self c = Ok self1
    /\ unregister_condition instance_id h self1 c = Ok self1.
Proof.
  intros Hreach. apply reachable_ok in Hreach.
  eexists. split; [apply unregister_condition_eq|].
  rewrite unregister_condition_eq. cbn. unfold with_index. cbn. do 2 f_equal.
  apply fold_remove_noop. intros d Hd Hh.
  apply has_entry_fold_remove in Hh; [|apply Hreach].
  destruct Hh as [_ Hn]. apply Hn. auto.
Qed.

Lemma fold_insert_keeps_bucket (c : loc) (ids : list Z) (idx : index) (d : Z) :
  has_entry idx d (instance_id c) ->
  dict_get d (fold_left (insert_under instance_id c) ids idx) = dict_get d idx.
Proof.
  revert idx. induction ids as [|d0 ids IH]; intros idx Hh; cbn.
  - reflexivity.
  - destruct (Z.eq_dec d0 d) as [->|Hne].
    + rewrite insert_under_noop by assumption. now apply IH.
    + assert (Hg : dict_get d (insert_under instance_id c idx d0)
                   = dict_get d idx)
        by now apply dict_get_insert_under_other.
      rewrite IH.
      * exact Hg.
      * destruct Hh as (b & Hb & Hc). exists b. now rewrite Hg.
Qed.

Lemma bucket_values_insert_under (c : loc) (idx : index) (d : Z) :
  ~ has_entry idx d (instance_id c) ->
  bucket_values (insert_under instance_id c idx d) d
  = bucket_values idx d ++ [c].
Proof.
  intros Hn. unfold bucket_values, insert_under.
  destruct (dict_get d idx) as [bucket|] eqn:Hd.
  - destruct (dict_contains (instance_id c) bucket) eqn:Hc.
    + exfalso. apply Hn. now exists bucket.
    + rewrite dict_get_setitem_same. unfold dict_contains in Hc.
      destruct (dict_get (instance_id c) bucket) eqn:Hg; [discriminate|].
      rewrite (dict_setitem_absent _ _ _ Hg). unfold dict_values.
      now rewrite map_app.
  - now rewrite dict_get_setitem_same.
Qed.

(** Buckets keep insertion order: a condition registered for a device where
    its instance id was not yet present is notified after all the conditions
    already in that bucket, whose order does not change. *)
Theorem X_register_appends_to_bucket (h : heap C) (self : HubitatPlugin)
    (c : loc) (d : Z) :
  In d (get_device_ids (h c)) ->
  ~ has_entry (_conditions_for_device self) d (instance_id c) ->
  exists self',
    register_condition instance_id h self c = Ok self'
    /\ bucket_values (_conditions_for_device self') d
       = bucket_values (_conditions_for_device self) d ++ [c].
Proof.
  intros Hin Hn. eexists. split; [apply register_condition_eq|]. cbn.
  apply in_split in Hin. destruct Hin as (pre & post & Hids).
  assert (Hsplit : exists pre post,
             get_device_ids (h c) = pre ++ d :: post /\ ~ In d pre).
  { clear Hn. revert pre post Hids.
    generalize (get_device_ids (h c)) as ids.
    induction ids as [|x ids IH]; intros pre post Hids.
    - destruct pre; discriminate.
    - destruct (Z.eq_dec x d) as [->|Hne].
      + exists [], ids. split; [reflexivity | intros []].
      + destruct pre as [|y pre]; cbn in Hids.
        * injection Hids as -> _. contradiction.
        * injection Hids as -> Hids.
          destruct (IH pre post Hids) as (pre' & post' & -> & Hni).
          exists (y :: pre'), post'. split; [reflexivity|].
          intros [->|Hi]; [contradiction | auto]. }
  clear pre post Hids. destruct Hsplit as (pre & post & -> & Hni).
  rewrite fold_left_app. cbn [fold_left].
  set (idx1 := fold_left (insert_under instance_id c) pre
                 (_conditions_for_device self)).
  assert (H1 : dict_get d idx1 = dict_get d (_conditions_for_device self))
    by (apply dict_get_fold_insert_other; exact Hni).
  assert (Hn1 : ~ has_entry idx1 d (instance_id c)).
  { intros (b & Hb & Hc). apply Hn. exists b. now rewrite <- H1. }
  assert (H2 : has_entry (insert_under instance_id c idx1 d) d (instance_id c))
    by (apply has_entry_insert_under; auto).
  unfold bucket_values at 1.
  rewrite (fold_insert_keeps_bucket c post _ d H2).
  change (bucket_values (insert_under instance_id c idx1 d) d
          = bucket_values (_conditions_for_device self) d ++ [c]).
  rewrite (bucket_values_insert_under c idx1 d Hn1).
  unfold bucket_values. now rewrite H1.
Qed.

End RegistrationFacts.

(** ** The dispatch loop, over a whole queue *)

Section RunFacts.

Context {C : Type} `{HubitatCondition C}.

Lemma run_turns_all (q : list (Z * string * PyValue)) :
  (forall (o : C) d a v, exists o', on_device_event o d a v = Ok o') ->
  forall (h : heap C) (self : HubitatPlugin),
    _event_q self = q ->
    exists h',
      run_turns (List.length q) h self
      = (expected_batches (_conditions_for_device self) q, h',
         with_queue self [], Suspended).
Proof.
  intros Htot. induction q as [|[[d a] v] q IH]; intros h self Hq.
  - exists h. cbn. destruct self as [q0 idx]. cbn in Hq. now subst q0.
  - cbn [List.length run_turns]. unfold run_turn. rewrite Hq.
    destruct (notify_all d a v
                (bucket_values (_conditions_for_device self) d)
                (fun o => Htot o d a v) h []) as (h1 & Hn & _).
    rewrite Hn. cbn [app].
    destruct (IH h1 (with_queue self q) eq_refl) as (h' & Hrun).
    exists h'. unfold expected_batches. cbn [map filter fst].
    destruct (0 <? List.length (bucket_values (_conditions_for_device self) d))%nat.
    + rewrite Hrun. reflexivity.
    + rewrite Hrun. reflexivity.
Qed.

End RunFacts.

Section ConcreteRun.

Context `{FloatText}.
Variable instance_id : loc -> Z.

(** Over the conditions of the repository, [run] works the queue off in
    order: it yields, event by event, the bucket of the event's device when
    that bucket exists, consumes every event, never touches the index, and
    ends suspended on the empty queue. *)
Theorem X_run_yields_buckets_in_queue_order (h : heap Condition)
    (self : HubitatPlugin) :
  exists h',
    run h self
    = (expected_batches (_conditions_for_device self) (_event_q self), h',
       {| _event_q := [];
          _conditions_for_device := _conditions_for_device self |},
       Suspended).
Proof.
  unfold run.
  destruct (run_turns_all (_event_q self)
              (fun o d a v => Condition_handler_returns d a v o) h self eq_refl)
    as (h' & Hrun).
  exists h'. exact Hrun.
Qed.

(** From the webhook to [evaluate]: with one static condition with a boolean
    static value registered for device [d], a webhook body for [d] and the
    condition's attribute carrying the string [s] is queued, dispatched in one
    batch, stored as the boolean "[s] is one of the truthy words", and the
    operator [=] then compares that boolean with the static value. *)
Theorem X_webhook_to_static_evaluate (h : heap Condition) (c : loc)
    (st : StaticDeviceAttributeCondition.t) (b : bool) (sid s : string) (d : Z) :
  h c = inr (inr st) ->
  StaticDeviceAttributeCondition._static_value st = VBool b ->
  StaticDeviceAttributeCondition._device_id st = d ->
  int_of_str sid = Ok d ->
  exists self1 self2 r h' self3 st',
    register_condition instance_id h __init__ c = Ok self1
    /\ _on_device_event self1
         {| device_id := sid;
            attribute := StaticDeviceAttributeCondition._attr_name st;
            value := VStr s |} = Ok (self2, r)
    /\ run h self2 = ([[c]], h', self3, Suspended)
    /\ h' c = inr (inr st')
    /\ StaticDeviceAttributeCondition._device_value st'
       = VBool (str_in (py_lower s)
                  StaticDeviceAttributeCondition.truthy_words)
    /\ (String.eqb (StaticDeviceAttributeCondition._operator st) "=" = false
        \/ evaluate (h' c)
           = Ok (Bool.eqb
                   (str_in (py_lower s)
                      StaticDeviceAttributeCondition.truthy_words) b)).
Proof.
  intros Hc Hstatic Hd Hsid.
  assert (Hcast : StaticDeviceAttributeCondition._cast_value st (VStr s)
                  = Ok (VBool (str_in (py_lower s)
                                 StaticDeviceAttributeCondition.truthy_words))).
  { apply cast_value_bool_words. now rewrite Hstatic. }
  eexists. eexists. eexists. eexists. eexists. eexists.
  split; [apply register_condition_eq|].
  split.
  { unfold _on_device_event. cbn [device_id attribute value]. rewrite Hsid.
    cbn [bind]. reflexivity. }
  rewrite Hc. cbn [get_device_ids sum_condition Static_condition].
  unfold StaticDeviceAttributeCondition.get_device_ids. rewrite Hd.
  cbn [fold_left _conditions_for_device __init__ with_index with_queue
       _event_q app].
  unfold insert_under. cbn [dict_get dict_setitem].
  unfold run, with_queue, with_index, __init__.
  cbn [_event_q _conditions_for_device List.length run_turns].
  unfold run_turn, bucket_values.
  cbn [_event_q _conditions_for_device dict_get]. rewrite Z.eqb_refl.
  cbn [dict_values map snd notify]. rewrite Hc.
  cbn [on_device_event sum_condition Static_condition bind].
  unfold StaticDeviceAttributeCondition.on_device_event.
  rewrite Hd, Z.eqb_refl, String.eqb_refl. cbn [andb]. rewrite Hcast.
  cbn [bind app List.length Nat.ltb Nat.leb].
  split; [reflexivity|].
  split; [apply heap_set_same|].
  split; [reflexivity|].
  destruct (String.eqb (StaticDeviceAttributeCondition._operator st) "=")
    eqn:Hop; [right | now left].
  rewrite heap_set_same. cbn [evaluate sum_condition Static_condition].
  unfold StaticDeviceAttributeCondition.evaluate.
  cbn [StaticDeviceAttributeCondition._operator
       StaticDeviceAttributeCondition._device_value
       StaticDeviceAttributeCondition._static_value].
  rewrite Hop, Hstatic. cbn [orb]. f_equal.
  now destruct (str_in (py_lower s) StaticDeviceAttributeCondition.truthy_words),
    b.
Qed.

End ConcreteRun.

(** ** The condition classes under events *)

Section ConditionFacts.

Context `{FloatText}.

Lemma names_pair_sym (id : Z) (attr : string) (d : Z) (a : string) :
  (id =? d) && String.eqb attr a = names_pair (id, attr) d a.
Proof.
  unfold names_pair. cbn. now rewrite (Z.eqb_sym id d), (String.eqb_sym attr a).
Qed.

Lemma names_pair_device (pair : Z * string) (d : Z) (a : string) :
  names_pair pair d a = true -> d = fst pair.
Proof.
  unfold names_pair. intros Hp. apply andb_true_iff in Hp.
  now apply Z.eqb_eq.
Qed.

(** A handler of the repository's classes returns normally, never changes
    which devices and pairs the condition tracks, and changes nothing at all
    when the event is for a pair the condition does not track. *)
Theorem X_handlers_keep_tracked_pairs (o : Condition) (d : Z) (a : string)
    (v : PyValue) :
  exists o',
    on_device_event o d a v = Ok o'
    /\ get_device_ids o' = get_device_ids o
    /\ (forall d' a', tracks o' d' a' = tracks o d' a')
    /\ (tracks o d a = true \/ o' = o).
Proof.
  destruct o as [x|[y|z]]; cbn.
  - unfold AttributeChangeCondition.on_device_event.
    rewrite names_pair_sym.
    destruct (names_pair _ d a) eqn:Hp;
      eexists; (split; [reflexivity|]); cbn; auto.
  - unfold DynamicDeviceAttributeCondition.on_device_event.
    change ((d =? DynamicDeviceAttributeCondition._left_device_id y)
            && String.eqb a (DynamicDeviceAttributeCondition._left_attr_name y))
      with (names_pair (DynamicDeviceAttributeCondition._left_device_id y,
                        DynamicDeviceAttributeCondition._left_attr_name y) d a).
    change ((d =? DynamicDeviceAttributeCondition._right_device_id y)
            && String.eqb a (DynamicDeviceAttributeCondition._right_attr_name y))
      with (names_pair (DynamicDeviceAttributeCondition._right_device_id y,
                        DynamicDeviceAttributeCondition._right_attr_name y) d a).
    destruct (names_pair (DynamicDeviceAttributeCondition._left_device_id y, _)
                d a) eqn:Hl.
    + eexists. split; [reflexivity|]. cbn. auto.
    + destruct (names_pair
                  (DynamicDeviceAttributeCondition._right_device_id y, _) d a)
        eqn:Hr; eexists; (split; [reflexivity|]); cbn; auto.
  - unfold StaticDeviceAttributeCondition.on_device_event.
    replace ((d =? StaticDeviceAttributeCondition._device_id z)
             && String.eqb (StaticDeviceAttributeCondition._attr_name z) a)
      with (names_pair (StaticDeviceAttributeCondition._device_id z,
                        StaticDeviceAttributeCondition._attr_name z) d a)
      by (unfold names_pair; cbn; now rewrite String.eqb_sym).
    destruct (names_pair _ d a) eqn:Hp.
    + destruct (cast_value_returns z v) as [v' ->]. cbn.
      eexists. split; [reflexivity|]. cbn. auto.
    + eexists. split; [reflexivity|]. auto.
Qed.

Lemma feed_dynamic_fields (evs : list (Z * string * PyValue)) :
  forall c : DynamicDeviceAttributeCondition.t,
    let first := (DynamicDeviceAttributeCondition._left_device_id c,
                  DynamicDeviceAttributeCondition._left_attr_name c) in
    let second := (DynamicDeviceAttributeCondition._right_device_id c,
                   DynamicDeviceAttributeCondition._right_attr_name c) in
    let c' := feed_dynamic c evs in
    DynamicDeviceAttributeCondition._left_value c'
    = latest_from (DynamicDeviceAttributeCondition._left_value c)
        (names_pair first) evs
    /\ DynamicDeviceAttributeCondition._right_value c'
       = latest_from (DynamicDeviceAttributeCondition._right_value c)
           (fun d a => negb (names_pair first d a) && names_pair second d a)
           evs
    /\ DynamicDeviceAttributeCondition._operator c'
       = DynamicDeviceAttributeCondition._operator c
    /\ DynamicDeviceAttributeCondition.get_device_ids c'
       = DynamicDeviceAttributeCondition.get_device_ids c.
Proof.
  induction evs as [|[[d a] v] evs IH]; intros c; cbn zeta.
  - repeat split.
  - unfold feed_dynamic, latest_from. cbn [fold_left fst snd].
    specialize (IH (DynamicDeviceAttributeCondition.on_device_event c d a v)).
    cbn zeta in IH. unfold feed_dynamic, latest_from in IH.
    unfold DynamicDeviceAttributeCondition.on_device_event in *.
    unfold names_pair in *. cbn [fst snd] in *.
    destruct ((d =? DynamicDeviceAttributeCondition._left_device_id c)
              && String.eqb a (DynamicDeviceAttributeCondition._left_attr_name c)).
    + cbn [negb andb]. exact IH.
    + cbn [negb andb].
      destruct ((d =? DynamicDeviceAttributeCondition._right_device_id c)
                && String.eqb a
                     (DynamicDeviceAttributeCondition._right_attr_name c));
        exact IH.
Qed.

(** A dynamic condition always holds the most recent values: on the left the
    value of the last event for the left pair; on the right the value of the
    last event for the right pair that is not also the left pair; [None]
    where no such event came.  Operator and device ids stay as built. *)
Theorem X_dynamic_holds_latest_values (first second : Z * string)
    (op : string) (evs : list (Z * string * PyValue)) :
  let c := feed_dynamic
             (DynamicDeviceAttributeCondition.__init__ first op second) evs in
  DynamicDeviceAttributeCondition._left_value c
  = latest_from VNone (names_pair first) evs
  /\ DynamicDeviceAttributeCondition._right_value c
     = latest_from VNone
         (fun d a => negb (names_pair first d a) && names_pair second d a) evs
  /\ DynamicDeviceAttributeCondition._operator c = op
  /\ DynamicDeviceAttributeCondition.get_device_ids c
     = [fst first; fst second].
Proof.
  cbn zeta.
  pose proof (feed_dynamic_fields evs
                (DynamicDeviceAttributeCondition.__init__ first op second))
    as Hf.
  cbn zeta in Hf. destruct first as [d1 a1], second as [d2 a2].
  exact Hf.
Qed.

Lemma latest_from_never (init : PyValue) (p : Z -> string -> bool)
    (evs : list (Z * string * PyValue)) :
  (forall d a, p d a = false) -> latest_from init p evs = init.
Proof.
  intros Hp. unfold latest_from. revert init.
  induction evs as [|ev evs IH]; intros init; cbn; [reflexivity|].
  now rewrite Hp.
Qed.

(** A dynamic condition that compares a pair with itself never sees its
    right operand: every event goes to the left, the right value stays
    [None], and each ordering operator is false whatever the events. *)
Theorem X_dynamic_self_comparison_never_orders :
  Forall
    (fun op =>
       forall (pair : Z * string) (evs : list (Z * string * PyValue)),
         let c := feed_dynamic
                    (DynamicDeviceAttributeCondition.__init__ pair op pair)
                    evs in
         DynamicDeviceAttributeCondition._right_value c = VNone
         /\ DynamicDeviceAttributeCondition.evaluate c = Ok false)
    ordering_operators.
Proof.
  assert (Hfields : forall op pair evs,
             DynamicDeviceAttributeCondition._right_value
               (feed_dynamic
                  (DynamicDeviceAttributeCondition.__init__ pair op pair) evs)
             = VNone
             /\ DynamicDeviceAttributeCondition._operator
                  (feed_dynamic
                     (DynamicDeviceAttributeCondition.__init__ pair op pair)
                     evs)
                = op).
  { intros op pair evs.
    destruct (feed_dynamic_fields evs
                (DynamicDeviceAttributeCondition.__init__ pair op pair))
      as (_ & Hr & Ho & _).
    split; [|exact Ho]. rewrite Hr. apply latest_from_never. intros d a.
    now destruct (names_pair _ d a). }
  unfold ordering_operators.
  repeat (apply Forall_cons;
          [intros pair evs; cbn zeta;
           match goal with
           | |- context [DynamicDeviceAttributeCondition.__init__ pair ?op pair] =>
               destruct (Hfields op pair evs) as [Hr Ho]
           end;
           split; [exact Hr|];
           unfold DynamicDeviceAttributeCondition.evaluate,
             DynamicDeviceAttributeCondition.both_seen;
           rewrite Ho, Hr; cbn; now rewrite andb_false_r|]).
  apply Forall_nil.
Qed.

Lemma py_order_comparable (a b : PyValue) :
  if comparable a b
  then exists c, py_order a b = Ok c
  else py_order a b = Raise TypeError.
Proof.
  unfold comparable, py_order.
  destruct (as_num a) eqn:Ha, (as_num b) eqn:Hb; try (now eexists);
    destruct a, b; cbn in *; try discriminate; try reflexivity; now eexists.
Qed.

Lemma ordering_result (op : string) (a b : PyValue) (r : Result bool) :
  In op ordering_operators ->
  r = (if String.eqb op ">" then py_gt a b
       else if String.eqb op ">=" then py_ge a b
       else if String.eqb op "<" then py_lt a b
       else py_le a b) ->
  if comparable a b then exists x, r = Ok x else r = Raise TypeError.
Proof.
  intros Hop ->. pose proof (py_order_comparable a b) as Hc.
  unfold py_gt, py_ge, py_lt, py_le.
  destruct (comparable a b).
  - destruct Hc as [c ->]. cbn.
    destruct (String.eqb op ">"); [now eexists|].
    destruct (String.eqb op ">="); [now eexists|].
    destruct (String.eqb op "<"); now eexists.
  - rewrite Hc. cbn.
    destruct (String.eqb op ">"); [reflexivity|].
    destruct (String.eqb op ">="); [reflexivity|].
    destruct (String.eqb op "<"); reflexivity.
Qed.

(** With an ordering operator, [evaluate] returns a boolean when the two
    operands are two numbers or two strings, and raises [TypeError] otherwise
    (a string against a number; in the static variant also a device value
    still [None]); the dynamic variant answers false, before comparing, when
    an operand is [None]. *)
Theorem X_ordering_needs_comparable_operands (op : string) :
  In op ordering_operators ->
  (forall c : DynamicDeviceAttributeCondition.t,
      DynamicDeviceAttributeCondition._operator c = op ->
      if DynamicDeviceAttributeCondition.both_seen c
      then if comparable (DynamicDeviceAttributeCondition._left_value c)
                (DynamicDeviceAttributeCondition._right_value c)
           then exists b, DynamicDeviceAttributeCondition.evaluate c = Ok b
           else DynamicDeviceAttributeCondition.evaluate c = Raise TypeError
      else DynamicDeviceAttributeCondition.evaluate c = Ok false)
  /\ (forall c : StaticDeviceAttributeCondition.t,
        StaticDeviceAttributeCondition._operator c = op ->
        if comparable (StaticDeviceAttributeCondition._device_value c)
             (StaticDeviceAttributeCondition._static_value c)
        then exists b, StaticDeviceAttributeCondition.evaluate c = Ok b
        else StaticDeviceAttributeCondition.evaluate c = Raise TypeError).
Proof.
  intros Hop. split; intros c Hc.
  - destruct (DynamicDeviceAttributeCondition.both_seen c) eqn:Hseen.
    + apply (ordering_result op); [exact Hop|].
      unfold DynamicDeviceAttributeCondition.evaluate. rewrite Hc, Hseen.
      destruct Hop as [<-|[<-|[<-|[<-|[]]]]]; reflexivity.
    + unfold DynamicDeviceAttributeCondition.evaluate. rewrite Hc, Hseen.
      destruct Hop as [<-|[<-|[<-|[<-|[]]]]]; reflexivity.
  - apply (ordering_result op); [exact Hop|].
    unfold StaticDeviceAttributeCondition.evaluate. rewrite Hc.
    destruct Hop as [<-|[<-|[<-|[<-|[]]]]]; reflexivity.
Qed.

(** [_cast_value] never raises and is idempotent: casting a cast value
    changes nothing; against a boolean static value the result is [None] or
    a boolean. *)
Theorem X_cast_value_idempotent (self : StaticDeviceAttributeCondition.t)
    (v : PyValue) :
  exists v1,
    StaticDeviceAttributeCondition._cast_value self v = Ok v1
    /\ StaticDeviceAttributeCondition._cast_value self v1 = Ok v1
    /\ (isinstance (StaticDeviceAttributeCondition._static_value self) cls_bool
        = false
        \/ v1 = VNone \/ exists b, v1 = VBool b).
Proof.
  destruct (isinstance (StaticDeviceAttributeCondition._static_value self)
              cls_bool) eqn:Hb.
  - unfold StaticDeviceAttributeCondition._cast_value,
      StaticDeviceAttributeCondition.cast_attempt. rewrite Hb.
    destruct v;
      (eexists; split; [reflexivity|]; split; [reflexivity|]; right; eauto).
  - exists v. rewrite cast_value_is_identity_off_bool by exact Hb. auto.
Qed.

End ConditionFacts.

(** ** Devices and capabilities *)

Section StrDictFacts.

Context {V : Type}.
Implicit Types (d : sdict V) (k : string) (v : V).

Lemma sdict_get_setitem_same k v d : sdict_get k (sdict_setitem k v d) = Some v.
Proof.
  induction d as [|[k' v'] d IH]; cbn.
  - now rewrite String.eqb_refl.
  - destruct (String.eqb_spec k' k) as [->|Hne]; cbn.
    + now rewrite String.eqb_refl.
    + destruct (String.eqb_spec k' k); [contradiction | exact IH].
Qed.

Lemma sdict_get_setitem_other k k' v d :
  k <> k' -> sdict_get k' (sdict_setitem k v d) = sdict_get k' d.
Proof.
  intros Hne. induction d as [|[k0 v0] d IH]; cbn.
  - destruct (String.eqb_spec k k'); [contradiction | reflexivity].
  - destruct (String.eqb_spec k0 k) as [->|Hk]; cbn.
    + destruct (String.eqb_spec k k'); [contradiction | reflexivity].
    + now rewrite IH.
Qed.

Lemma sdict_get_In k v d : sdict_get k d = Some v -> In v (sdict_values d).
Proof.
  induction d as [|[k' v'] d IH]; cbn; [discriminate|].
  destruct (String.eqb k' k).
  - intros [= ->]. now left.
  - intros Hg. right. auto.
Qed.

Lemma sdict_keys_setitem_NoDup k v d :
  NoDup (map fst d) -> NoDup (map fst (sdict_setitem k v d)).
Proof.
  induction d as [|[k' v'] d IH]; cbn; intros Hnd.
  - repeat constructor. intros [].
  - inversion Hnd as [|? ? Hni Hnd']; subst.
    destruct (String.eqb_spec k' k) as [->|Hne]; cbn.
    + now constructor.
    + constructor; [|auto]. intros Hin. apply Hni.
      clear -Hin Hne. induction d as [|[k0 v0] d IH]; cbn in *.
      * destruct Hin as [->|[]]. contradiction.
      * destruct (String.eqb k0 k); cbn in *; intuition.
Qed.

Lemma sdict_In_get (x : V) d :
  NoDup (map fst d) ->
  In x (sdict_values d) -> exists k, sdict_get k d = Some x.
Proof.
  induction d as [|[k' v'] d IH]; cbn; intros Hnd Hin; [contradiction|].
  inversion Hnd as [|? ? Hni Hnd']; subst.
  destruct Hin as [->|Hin].
  - exists k'. now rewrite String.eqb_refl.
  - destruct (IH Hnd' Hin) as [k Hk]. exists k.
    destruct (String.eqb_spec k' k) as [->|Hne]; [|exact Hk].
    exfalso. apply Hni. clear -Hk.
    induction d as [|[k0 v0] d IH]; cbn in *; [discriminate|].
    destruct (String.eqb_spec k0 k); [now left | right; auto].
Qed.

End StrDictFacts.

Lemma parse_capabilities_from (names : list string)
    (cmap : sdict DeviceCapability.t) :
  forall (st : sdict DeviceCapability.t * list string),
    let st' :=
      fold_left
        (fun (st : sdict DeviceCapability.t * list string) name =>
           match sdict_get name cmap with
           | Some cap => (sdict_setitem name cap (fst st), snd st)
           | None =>
               (fst st,
                snd st
                ++ [String.append "Unknown capability '"
                      (String.append name "' - skipping")])
           end) names st in
    (forall n,
        sdict_get n (fst st')
        = if existsb (String.eqb n) names
          then match sdict_get n cmap with
               | Some cap => Some cap
               | None => sdict_get n (fst st)
               end
          else sdict_get n (fst st))
    /\ snd st'
       = snd st
         ++ map unknown_capability_warning
              (filter (fun n => match sdict_get n cmap with
                                | None => true
                                | Some _ => false
                                end) names)
    /\ (NoDup (map fst (fst st)) -> NoDup (map fst (fst st'))).
Proof.
  induction names as [|name names IH]; intros st; cbn zeta.
  - cbn. rewrite app_nil_r. auto.
  - cbn [fold_left existsb filter].
    match goal with
    | |- context [fold_left ?f names ?s] => specialize (IH s)
    end.
    cbn zeta in IH. destruct IH as (Hget & Hlog & Hnd).
    destruct (sdict_get name cmap) as [cap|] eqn:Hname; cbn [fst snd] in *.
    + split; [|split].
      * intros n. rewrite Hget.
        destruct (String.eqb_spec n name) as [->|Hne]; cbn [orb].
        -- rewrite Hname, sdict_get_setitem_same.
           now destruct (existsb (String.eqb name) names).
        -- rewrite sdict_get_setitem_other by congruence. reflexivity.
      * exact Hlog.
      * intros H0. apply Hnd. now apply sdict_keys_setitem_NoDup.
    + split; [|split].
      * intros n. rewrite Hget.
        destruct (String.eqb_spec n name) as [->|Hne]; cbn [orb].
        -- rewrite Hname. now destruct (existsb (String.eqb name) names).
        -- reflexivity.
      * rewrite Hlog. cbn [map]. rewrite <- app_assoc. reflexivity.
      * exact Hnd.
Qed.

(** [_parse_capabilities] keeps, of the names a device reports, those the
    catalog knows, each with the catalog's definition, and logs one warning
    for each occurrence of a name it does not know, in order. *)
Theorem X_parse_capabilities_lookup (names : list string)
    (cmap : sdict DeviceCapability.t) :
  (forall n,
      sdict_get n (fst (HubitatDevice._parse_capabilities names cmap))
      = if existsb (String.eqb n) names then sdict_get n cmap else None)
  /\ snd (HubitatDevice._parse_capabilities names cmap)
     = map unknown_capability_warning
         (filter (fun n => match sdict_get n cmap with
                           | None => true
                           | Some _ => false
                           end) names).
Proof.
  destruct (parse_capabilities_from names cmap ([], [])) as (Hget & Hlog & _).
  split.
  - intros n. unfold HubitatDevice._parse_capabilities. rewrite Hget. cbn.
    now destruct (existsb (String.eqb n) names), (sdict_get n cmap).
  - exact Hlog.
Qed.

(** A device built from reported capability names has a command exactly when
    one of the reported names is known to the catalog and that capability
    lists the command: commands of unknown capabilities cannot be reached. *)
Theorem X_has_command_needs_known_capability (dev : HubitatDevice.t)
    (names : list string) (cmap : sdict DeviceCapability.t) (cmd : string) :
  HubitatDevice.capabilities dev
  = fst (HubitatDevice._parse_capabilities names cmap) ->
  HubitatDevice.has_command dev cmd = true
  <-> exists n cap,
      In n names /\ sdict_get n cmap = Some cap
      /\ capability_has_command cmd cap = true.
Proof.
  intros Hcaps. unfold HubitatDevice.has_command. rewrite Hcaps.
  destruct (parse_capabilities_from names cmap ([], [])) as (Hget & _ & Hnd).
  fold (HubitatDevice._parse_capabilities names cmap) in Hget, Hnd.
  cbn [fst map] in Hnd. specialize (Hnd (NoDup_nil _)).
  split.
  - intros Hex. apply existsb_exists in Hex. destruct Hex as (cap & Hin & Hc).
    apply (sdict_In_get cap _ Hnd) in Hin. destruct Hin as [n Hn].
    rewrite Hget in Hn. cbn [fst sdict_get] in Hn.
    destruct (existsb (String.eqb n) names) eqn:He.
    + apply existsb_exists in He. destruct He as (n' & Hin' & Heq).
      apply String.eqb_eq in Heq. subst n'.
      destruct (sdict_get n cmap) as [cap'|] eqn:Hc'; [|discriminate].
      injection Hn as <-. exists n, cap'. auto.
    + discriminate.
  - intros (n & cap & Hin & Hc & Hcmd). apply existsb_exists.
    exists cap. split; [|exact Hcmd].
    apply (sdict_get_In n). rewrite Hget. cbn [fst sdict_get].
    assert (He : existsb (String.eqb n) names = true).
    { apply existsb_exists. exists n. split; [exact Hin|].
      apply String.eqb_refl. }
    now rewrite He, Hc.
Qed.

(** [get_attr_value] returns a value exactly when [has_attribute] is true,
    and raises [AttributeError] exactly when it is false. *)
Theorem X_get_attr_value_iff_has_attribute (dev : HubitatDevice.t)
    (n : string) :
  (HubitatDevice.has_attribute dev n = true
   <-> exists v, HubitatDevice.get_attr_value dev n = Returns v)
  /\ (HubitatDevice.has_attribute dev n = false
      <-> HubitatDevice.get_attr_value dev n = Raises AttributeError).
Proof.
  unfold HubitatDevice.has_attribute, HubitatDevice.get_attr_value.
  induction (HubitatDevice.attributes dev) as [|attr attrs IH]; cbn.
  - split; split; try discriminate; try reflexivity.
    intros [v Hv]. discriminate.
  - destruct (String.eqb (DeviceAttribute.name attr) n); cbn.
    + split; split; try discriminate; try reflexivity.
      intros _. now eexists.
    + exact IH.
Qed.

(** What [Device.__getattr__] gives for a name: an [Attribute] whenever the
    device has an attribute of that name (even if a command has the same
    name), a [Command] only when it has no such attribute but such a command,
    [AttributeError] exactly when it has neither, and the error of [int] when
    the name resolves but the device id is not an integer literal. *)
Theorem X_getattr_resolution (self : Device.t) (n : string) :
  let dev := Device._device self in
  match Device.__getattr__ self n with
  | Returns (inl attr) =>
      HubitatDevice.has_attribute dev n = true
      /\ int_of_str (HubitatDevice.id dev) = Ok (Attribute._device_id attr)
      /\ Attribute._attr_name attr = n
  | Returns (inr cmd) =>
      HubitatDevice.has_attribute dev n = false
      /\ HubitatDevice.has_command dev n = true
      /\ int_of_str (HubitatDevice.id dev) = Ok (Command._device_id cmd)
      /\ Command._command_name cmd = n
  | Raises AttributeError =>
      HubitatDevice.has_attribute dev n = false
      /\ HubitatDevice.has_command dev n = false
  | Raises (Builtin e) =>
      int_of_str (HubitatDevice.id dev) = Raise e
      /\ (HubitatDevice.has_attribute dev n = true
          \/ HubitatDevice.has_command dev n = true)
  | Raises Exception => False
  end.
Proof.
  cbn zeta. unfold Device.__getattr__.
  destruct (HubitatDevice.has_attribute (Device._device self) n) eqn:Ha.
  - destruct (int_of_str (HubitatDevice.id (Device._device self))) eqn:Hi;
      cbn; auto.
  - destruct (HubitatDevice.has_command (Device._device self) n) eqn:Hc.
    + destruct (int_of_str (HubitatDevice.id (Device._device self))) eqn:Hi;
        cbn; auto.
    + auto.
Qed.

(** ** The facade *)

Section FacadeFacts.

Context `{FloatText}.

Lemma comparison_step
    (o : DynamicDeviceAttributeCondition.t + StaticDeviceAttributeCondition.t)
    (d : Z) (a : string) (v : PyValue) :
  exists o',
    on_device_event (inr o : Condition) d a v = Ok (inr o')
    /\ operator_of o' = operator_of o
    /\ get_device_ids (inr o' : Condition) = get_device_ids (inr o : Condition)
    /\ is_dynamic o' = is_dynamic o.
Proof.
  destruct o as [y|z]; cbn.
  - unfold DynamicDeviceAttributeCondition.on_device_event.
    destruct (_ && _); [eexists; split; [reflexivity|]; cbn; auto|].
    destruct (_ && _); eexists; (split; [reflexivity|]); cbn; auto.
  - unfold StaticDeviceAttributeCondition.on_device_event.
    destruct (_ && _).
    + destruct (cast_value_returns z v) as [v' ->]. cbn.
      eexists. split; [reflexivity|]. cbn. auto.
    + eexists. split; [reflexivity|]. auto.
Qed.

Lemma comparison_feed (evs : list (Z * string * PyValue)) :
  forall o : DynamicDeviceAttributeCondition.t + StaticDeviceAttributeCondition.t,
  exists o',
    feed (inr o : Condition) evs = Ok (inr o')
    /\ operator_of o' = operator_of o
    /\ get_device_ids (inr o' : Condition) = get_device_ids (inr o : Condition)
    /\ is_dynamic o' = is_dynamic o.
Proof.
  unfold feed. induction evs as [|[[d a] v] evs IH]; intros o.
  - exists o. cbn. auto.
  - destruct (comparison_step o d a v) as (o1 & Hs & Hop & Hids & Hk).
    destruct (IH o1) as (o' & Hf & Hop' & Hids' & Hk').
    exists o'. cbn [for_each fst snd]. rewrite Hs. cbn [bind].
    repeat split; congruence.
Qed.

Lemma known_operator_evaluates
    (o : DynamicDeviceAttributeCondition.t + StaticDeviceAttributeCondition.t) :
  operator_known (operator_of o) = true ->
  match evaluate (inr o : Condition) with
  | Raise ValueError => False
  | _ => True
  end.
Proof.
  intros Hop.
  assert (Hord : forall a b,
             (match py_gt a b with Raise ValueError => False | _ => True end)
             /\ (match py_ge a b with Raise ValueError => False | _ => True end)
             /\ (match py_lt a b with Raise ValueError => False | _ => True end)
             /\ (match py_le a b with Raise ValueError => False | _ => True end)).
  { intros a b. unfold py_gt, py_ge, py_lt, py_le.
    pose proof (py_order_total_on_seen a b) as Ht.
    destruct (py_order a b) as [c|e]; cbn; [tauto|]. subst e. tauto. }
  unfold operator_known in Hop. cbn [str_in] in Hop.
  destruct o as [y|z]; cbn in *.
  - unfold DynamicDeviceAttributeCondition.evaluate.
    destruct (String.eqb _ "="); [exact I|].
    destruct (String.eqb _ "=="); [exact I|].
    destruct (String.eqb _ "!="); [exact I|].
    destruct (String.eqb _ "<>"); [exact I|]. cbn [orb] in *.
    destruct (String.eqb _ ">");
      [destruct (DynamicDeviceAttributeCondition.both_seen y);
       [apply Hord | exact I]|].
    destruct (String.eqb _ ">=");
      [destruct (DynamicDeviceAttributeCondition.both_seen y);
       [apply Hord | exact I]|].
    destruct (String.eqb _ "<");
      [destruct (DynamicDeviceAttributeCondition.both_seen y);
       [apply Hord | exact I]|].
    destruct (String.eqb _ "<=");
      [destruct (DynamicDeviceAttributeCondition.both_seen y);
       [apply Hord | exact I]|].
    discriminate.
  - unfold StaticDeviceAttributeCondition.evaluate.
    destruct (String.eqb _ "="); [exact I|].
    destruct (String.eqb _ "=="); [exact I|].
    destruct (String.eqb _ "!="); [exact I|].
    destruct (String.eqb _ "<>"); [exact I|]. cbn [orb] in *.
    destruct (String.eqb _ ">"); [apply Hord|].
    destruct (String.eqb _ ">="); [apply Hord|].
    destruct (String.eqb _ "<"); [apply Hord|].
    destruct (String.eqb _ "<="); [apply Hord|].
    discriminate.
Qed.

(** A condition built by one of the six comparison methods of [Attribute] is
    dynamic when the other operand is an [Attribute] and static otherwise,
    depends on the device of each operand, and, after any events, never
    fails at [evaluate] with the unknown-operator error. *)
Theorem X_comparison_methods_build_known_operators :
  Forall
    (fun method =>
       forall (self : Attribute.t) (other : Attribute.t + PyValue)
              (evs : list (Z * string * PyValue)),
       exists o',
         feed (inr (method self other) : Condition) evs = Ok (inr o')
         /\ match evaluate (inr o' : Condition) with
            | Raise ValueError => False
            | _ => True
            end
         /\ match other, o' with
            | inl attr, inl y =>
                DynamicDeviceAttributeCondition.get_device_ids y
                = [Attribute._device_id self; Attribute._device_id attr]
            | inr _, inr z =>
                StaticDeviceAttributeCondition.get_device_ids z
                = [Attribute._device_id self]
            | _, _ => False
            end)
    comparison_methods.
Proof.
  assert (Hall : forall op,
             operator_known op = true ->
             forall (self : Attribute.t) (other : Attribute.t + PyValue)
                    (evs : list (Z * string * PyValue)),
             exists o',
               feed (inr (Attribute._compare self other op) : Condition) evs
               = Ok (inr o')
               /\ match evaluate (inr o' : Condition) with
                  | Raise ValueError => False
                  | _ => True
                  end
               /\ match other, o' with
                  | inl attr, inl y =>
                      DynamicDeviceAttributeCondition.get_device_ids y
                      = [Attribute._device_id self; Attribute._device_id attr]
                  | inr _, inr z =>
                      StaticDeviceAttributeCondition.get_device_ids z
                      = [Attribute._device_id self]
                  | _, _ => False
                  end).
  { intros op Hop self other evs.
    destruct (comparison_feed evs (Attribute._compare self other op))
      as (o' & Hf & Hop' & Hids & Hk).
    exists o'. split; [exact Hf|]. split.
    - apply known_operator_evaluates. rewrite Hop'.
      now destruct other.
    - destruct other as [attr|v], o' as [y|z]; cbn in *;
        try exact Hids; discriminate. }
  unfold comparison_methods.
  repeat (apply Forall_cons; [now apply Hall|]). apply Forall_nil.
Qed.

(** [self._address], and the HTTP request of [_make_request]. *)
Variable _address : string.
Variable _make_request : string -> Outcome unit.





End FacadeFacts.

(** ** The further properties at sample inputs *)

Lemma X_reachable_index_well_formed_witness :
  reachable (C := AttributeChangeCondition.t) Z.of_nat [(2, [(2, 2%nat)])]
  /\ NoDup (dict_keys [(2, [(2, 2%nat)])])
  /\ forall d bucket,
      dict_get d [(2, [(2, 2%nat)])] = Some bucket ->
      NoDup (dict_keys bucket)
      /\ bucket <> []
      /\ forall i c, dict_get i bucket = Some c -> i = Z.of_nat c.
Proof.
  assert (Hreach : reachable (C := AttributeChangeCondition.t) Z.of_nat
                     [(2, [(2, 2%nat)])])
    by exact (reach_register Z.of_nat switch_heap __init__
                {| _event_q := [];
                   _conditions_for_device := [(2, [(2, 2%nat)])] |}
                2%nat (reach_init (C := AttributeChangeCondition.t) Z.of_nat)
                eq_refl).
  split; [exact Hreach|].
  exact (X_reachable_index_well_formed Z.of_nat _ Hreach).
Defined.

Lemma X_unregister_removes_exactly_witness :
  let self := {| _event_q := []; _conditions_for_device := [(2, [(2, 2%nat)])] |} in
  reachable (C := AttributeChangeCondition.t) Z.of_nat
    (_conditions_for_device self)
  /\ exists self',
      unregister_condition Z.of_nat switch_heap self 2%nat = Ok self'
      /\ _event_q self' = _event_q self
      /\ forall d i,
          has_entry (_conditions_for_device self') d i
          <-> has_entry (_conditions_for_device self) d i
              /\ ~ (In d [2] /\ i = 2).
Proof.
  cbn zeta.
  assert (Hreach : reachable (C := AttributeChangeCondition.t) Z.of_nat
                     [(2, [(2, 2%nat)])])
    by exact (reach_register Z.of_nat switch_heap __init__
                {| _event_q := [];
                   _conditions_for_device := [(2, [(2, 2%nat)])] |}
                2%nat (reach_init (C := AttributeChangeCondition.t) Z.of_nat)
                eq_refl).
  split; [exact Hreach|].
  exact (X_unregister_removes_exactly Z.of_nat switch_heap
           {| _event_q := []; _conditions_for_device := [(2, [(2, 2%nat)])] |}
           2%nat Hreach).
Defined.

Lemma X_unregister_unknown_is_noop_witness :
  let self := {| _event_q := []; _conditions_for_device := [(2, [(2, 2%nat)])] |} in
  unused_id 1 (_conditions_for_device self)
  /\ unregister_condition Z.of_nat switch_heap self 1%nat = Ok self.
Proof.
  cbn zeta.
  assert (Hunused : unused_id 1 [(2, [(2, 2%nat)])]) by (repeat constructor).
  split; [exact Hunused|].
  exact (X_unregister_unknown_is_noop Z.of_nat switch_heap
           {| _event_q := []; _conditions_for_device := [(2, [(2, 2%nat)])] |}
           1%nat Hunused).
Defined.

Lemma X_unregister_idempotent_witness :
  let self := {| _event_q := []; _conditions_for_device := [(2, [(2, 2%nat)])] |} in
  reachable (C := AttributeChangeCondition.t) Z.of_nat
    (_conditions_for_device self)
  /\ exists self1,
      unregister_condition Z.of_nat switch_heap self 2%nat = Ok self1
      /\ unregister_condition Z.of_nat switch_heap self1 2%nat = Ok self1.
Proof.
  cbn zeta.
  assert (Hreach : reachable (C := AttributeChangeCondition.t) Z.of_nat
                     [(2, [(2, 2%nat)])])
    by exact (reach_register Z.of_nat switch_heap __init__
                {| _event_q := [];
                   _conditions_for_device := [(2, [(2, 2%nat)])] |}
                2%nat (reach_init (C := AttributeChangeCondition.t) Z.of_nat)
                eq_refl).
  split; [exact Hreach|].
  exact (X_unregister_idempotent Z.of_nat switch_heap
           {| _event_q := []; _conditions_for_device := [(2, [(2, 2%nat)])] |}
           2%nat Hreach).
Defined.

Lemma X_register_appends_to_bucket_witness :
  let self := {| _event_q := [];
                 _conditions_for_device := [(42, [(1, 1%nat)])] |} in
  In 42 (get_device_ids (faulty_heap 2%nat))
  /\ ~ has_entry (_conditions_for_device self) 42 2
  /\ exists self',
      register_condition Z.of_nat faulty_heap self 2%nat = Ok self'
      /\ bucket_values (_conditions_for_device self') 42
         = bucket_values (_conditions_for_device self) 42 ++ [2%nat].
Proof.
  cbn zeta.
  assert (Hin : In 42 (get_device_ids (faulty_heap 2%nat)))
    by (left; reflexivity).
  assert (Hn : ~ has_entry [(42, [(1, 1%nat)])] 42 2).
  { intros (b & Hb & Hc). cbn in Hb. injection Hb as <-. discriminate. }
  split; [exact Hin|]. split; [exact Hn|].
  exact (X_register_appends_to_bucket Z.of_nat faulty_heap
           {| _event_q := [];
              _conditions_for_device := [(42, [(1, 1%nat)])] |}
           2%nat 42 Hin Hn).
Defined.

Lemma X_webhook_to_static_evaluate_witness :
  exists self1 self2 r h' self3 st',
    register_condition Z.of_nat sample_heap __init__ 1%nat = Ok self1
    /\ _on_device_event self1
         {| device_id := "42"; attribute := "switch"; value := VStr "on" |}
       = Ok (self2, r)
    /\ run sample_heap self2 = ([[1%nat]], h', self3, Suspended)
    /\ h' 1%nat = inr (inr st')
    /\ StaticDeviceAttributeCondition._device_value st' = VBool true
    /\ evaluate (h' 1%nat) = Ok true.
Proof.
  destruct (X_webhook_to_static_evaluate Z.of_nat sample_heap 1%nat
              (StaticDeviceAttributeCondition.__init__ 42 "switch" "="
                 (VBool true))
              true "42" "on" 42 eq_refl eq_refl eq_refl eq_refl)
    as (self1 & self2 & r & h' & self3 & st' & H1 & H2 & H3 & H4 & H5 & H6).
  exists self1, self2, r, h', self3, st'.
  repeat (split; [assumption|]).
  destruct H6 as [H6|H6]; [discriminate H6 | exact H6].
Defined.

Lemma X_ordering_needs_comparable_operands_witness :
  In ">" ordering_operators
  /\ StaticDeviceAttributeCondition.evaluate
       {| StaticDeviceAttributeCondition._device_id := 42;
          StaticDeviceAttributeCondition._attr_name := "level";
          StaticDeviceAttributeCondition._device_value := VStr "on";
          StaticDeviceAttributeCondition._static_value := VInt 5;
          StaticDeviceAttributeCondition._operator := ">" |}
     = Raise TypeError
  /\ exists b,
      DynamicDeviceAttributeCondition.evaluate
        {| DynamicDeviceAttributeCondition._left_device_id := 1;
           DynamicDeviceAttributeCondition._left_attr_name := "level";
           DynamicDeviceAttributeCondition._right_device_id := 2;
           DynamicDeviceAttributeCondition._right_attr_name := "level";
           DynamicDeviceAttributeCondition._operator := ">";
           DynamicDeviceAttributeCondition._left_value := VInt 7;
           DynamicDeviceAttributeCondition._right_value := VBool true |}
      = Ok b.
Proof.
  assert (Hop : In ">" ordering_operators) by (left; reflexivity).
  split; [exact Hop|]. split.
  - exact (proj2 (X_ordering_needs_comparable_operands ">" Hop)
             {| StaticDeviceAttributeCondition._device_id := 42;
                StaticDeviceAttributeCondition._attr_name := "level";
                StaticDeviceAttributeCondition._device_value := VStr "on";
                StaticDeviceAttributeCondition._static_value := VInt 5;
                StaticDeviceAttributeCondition._operator := ">" |} eq_refl).
  - exact (proj1 (X_ordering_needs_comparable_operands ">" Hop)
             {| DynamicDeviceAttributeCondition._left_device_id := 1;
                DynamicDeviceAttributeCondition._left_attr_name := "level";
                DynamicDeviceAttributeCondition._right_device_id := 2;
                DynamicDeviceAttributeCondition._right_attr_name := "level";
                DynamicDeviceAttributeCondition._operator := ">";
                DynamicDeviceAttributeCondition._left_value := VInt 7;
                DynamicDeviceAttributeCondition._right_value := VBool true |}
             eq_refl).
Defined.

Lemma X_has_command_needs_known_capability_witness :
  HubitatDevice.capabilities sample_device
  = fst (HubitatDevice._parse_capabilities ["Switch"; "Teleport"]
           sample_catalog)
  /\ (HubitatDevice.has_command sample_device "on" = true
      <-> exists n cap,
          In n ["Switch"; "Teleport"]
          /\ sdict_get n sample_catalog = Some cap
          /\ capability_has_command "on" cap = true).
Proof.
  split; [reflexivity|].
  exact (X_has_command_needs_known_capability sample_device
           ["Switch"; "Teleport"] sample_catalog "on" eq_refl).
Defined.
